(** * TLCBench [tune_autotvm.py]: a shallow embedding and its properties

    The script is sequential glue around the TVM autotuning library.  The
    embedding keeps what the script itself decides: the strings it builds,
    the branches it takes, the order of the calls it makes and the arguments
    it passes.  Calls into [os] act on a file-system model that resolves
    paths component by component; [argparse] reads the options of a command
    line in the order they are given; calls into the tuning framework are
    recorded, in order, in a trace of events.  *)

From Stdlib Require Import Ascii String ZArith.
From stdpp Require Import base strings list gmap pretty.

Open Scope string_scope.
Open Scope Z_scope.
Open Scope list_scope.

(** ** Python strings and [os.path] *)

Definition sep : ascii := "/"%char.

(** [b.startswith("/")] *)
Definition startswith_sep (b : string) : bool :=
  match b with
  | String c _ => bool_decide (c = sep)
  | EmptyString => false
  end.

(** [a.endswith("/")] *)
Fixpoint endswith_sep (a : string) : bool :=
  match a with
  | EmptyString => false
  | String c EmptyString => bool_decide (c = sep)
  | String _ r => endswith_sep r
  end.

(** [posixpath.join(a, b)] for two arguments. *)
Definition os_path_join (a b : string) : string :=
  if startswith_sep b then b
  else if bool_decide (a = "") || endswith_sep a then a +:+ b
  else a +:+ "/" +:+ b.

(** ["%2d" % n] for a natural number: decimal, padded on the left with
    spaces to width two. *)
Definition fmt_2d (n : nat) : string :=
  let s := pretty n in
  if (String.length s <? 2)%nat then " " +:+ s else s.

(** ** The file-system model

    A node is named by a key, the list of the components that lead to it:
    keys of relative paths start at the working directory [[]], keys of
    absolute paths at the root [["/"]], and a key made of [".."] only is a
    directory above the working directory.  These anchors always exist and
    are directories.  Two keys are taken to name two nodes.  Symbolic links,
    permissions and the limits of a real file system (the length of a name
    or a path, free space) are outside the model. *)

Inductive node := File | Dir.

#[global] Instance node_eq_dec : EqDecision node.
Proof. solve_decision. Defined.

Fixpoint components_from (cur s : string) : list string :=
  match s with
  | EmptyString => [cur]
  | String c r =>
      if bool_decide (c = sep) then cur :: components_from "" r
      else components_from (cur +:+ String c "") r
  end.

(** A component that names an entry of a directory. *)
Definition proper_component (c : string) : bool :=
  negb (bool_decide (c = "") || bool_decide (c = ".") || bool_decide (c = "..")).

Definition above_cwd (k : list string) : bool :=
  forallb (λ c, bool_decide (c = "..")) k.

Definition is_anchor (k : list string) : bool :=
  above_cwd k || bool_decide (k = ["/"]).

(** The directory [".."] leads to: the root is its own parent. *)
Definition parent_key (k : list string) : list string :=
  if bool_decide (k = ["/"]) then ["/"]
  else if above_cwd k then k ++ [".."]
  else removelast k.

(** Following one component from the directory [cur]. *)
Definition enter (cur : list string) (c : string) : list string :=
  if bool_decide (c = "") || bool_decide (c = ".") then cur
  else if bool_decide (c = "..") then parent_key cur
  else cur ++ [c].

Definition start_key (p : string) : list string :=
  if startswith_sep p then ["/"] else [].

(** The key a path leads to, whatever the file system holds. *)
Definition resolve (p : string) : list string :=
  fold_left enter (components_from "" p) (start_key p).

Definition lookup_key (fs : gmap (list string) node) (k : list string) : option node :=
  if is_anchor k then Some Dir else fs !! k.

(** Path resolution: every component, the empty one a trailing separator
    leaves included, is looked up in a directory, which has to exist
    ([ENOENT] otherwise) and to be a directory ([ENOTDIR] otherwise). *)
Inductive walked :=
| At (k : list string)
| NoEntry
| NotDirectory.

Fixpoint walk (fs : gmap (list string) node) (cur : list string) (comps : list string)
  : walked :=
  match comps with
  | [] => At cur
  | c :: rest =>
      match lookup_key fs cur with
      | Some Dir => walk fs (enter cur c) rest
      | Some File => NotDirectory
      | None => NoEntry
      end
  end.

Definition locate (fs : gmap (list string) node) (p : string) : walked :=
  walk fs (start_key p) (components_from "" p).

(** [os.stat(p)], as far as the kind of the node; [None] when it fails. *)
Definition lookup_path (fs : gmap (list string) node) (p : string) : option node :=
  if bool_decide (p = "") then None
  else match locate fs p with
       | At k => lookup_key fs k
       | NoEntry | NotDirectory => None
       end.

(** The components of a path without its trailing separators. *)
Fixpoint strip_trailing (comps : list string) : list string :=
  match comps with
  | [] => []
  | c :: rest =>
      match strip_trailing rest with
      | [] => if bool_decide (c = "") then [] else [c]
      | rest' => c :: rest'
      end
  end.

(** ** Exceptions, state and the script monad *)

Inductive exn :=
| ValueError (msg : string)
| FileNotFoundError (path : string)
| FileExistsError (path : string)
| IsADirectoryError (path : string)
| NotADirectoryError (path : string)
| SystemExit (code : Z).

Inductive outcome (A : Type) :=
| Return (a : A)
| Raise (e : exn).
Arguments Return {A} a.
Arguments Raise {A} e.

(** ** Objects of the tuning framework

    Relay modules, parameters and shapes are only handed from one library
    call to the next; the model keeps where each came from. *)

Inductive pass :=
| RemoveUnusedFunctions
| ConvertLayout (desired_layouts : list (string * list string)).

Inductive ir_module :=
| NetworkModule (network : string)
| SequentialApply (passes : list pass) (opt_level : Z) (m : ir_module).

(** [mod[key]] *)
Inductive relay_func := GetItem (m : ir_module) (key : string).

Inductive params := NetworkParams (network : string).

Inductive shape :=
| NetworkInputShape (network : string)
| NetworkOutputShape (network : string).

(** [relay.op.get(name)] *)
Inductive op := OpGet (name : string).

Record target := { target_str : string; keys : list string }.

Record task := { task_name : string; config_space_len : N }.

(** Keyword arguments are kept as given; [None] stands for an argument the
    script leaves to the library default. *)
Record local_builder := LocalBuilder { builder_timeout : option Z }.

Record local_runner := LocalRunner {
  number : Z;
  repeat : Z;
  runner_timeout : option Z;
  min_repeat_ms : Z;
  enable_cpu_cache_flush : option bool }.

Record measure_opt := measure_option {
  builder : local_builder;
  runner : local_runner }.

Inductive tuner_obj :=
| XGBTuner (tsk : task) (loss_type : string)
| GATuner (tsk : task) (pop_size : Z)
| RandomTuner (tsk : task)
| GridSearchTuner (tsk : task).

Inductive callback :=
| progress_bar (total : Z) (prefix : string)
| log_to_file (filename : string).

Inductive graph_tuner_kind := DPTuner | PBQPTuner.

Record graph_executor := GraphTuner {
  gt_kind : graph_tuner_kind;
  gt_graph : relay_func;
  gt_input_shapes : list (string * shape);
  gt_records : string;
  gt_target_op : list op;
  gt_target : target }.

(** What the script does to the outside world, in order. *)
Inductive event :=
| EvPrint (msg : string)
| EvRemove (path : string)
| EvMkdir (path : string)
| EvGetNetwork (network : string)
| EvExtract (f : relay_func) (tgt : target) (p : params) (ops : list op)
| EvNewTuner (t : tuner_obj)
| EvTune (t : tuner_obj) (n_trial : Z) (early_stopping : option Z)
    (mo : measure_opt) (callbacks : list callback)
| EvNewGraphTuner (e : graph_executor)
| EvBenchmarkLayoutTransform (e : graph_executor) (min_exec_num : Z)
| EvRun (e : graph_executor)
| EvWriteOptSch (e : graph_executor) (file : string).

Record state := State {
  fs : gmap (list string) node;
  trace : list event }.

Definition M (A : Type) : Type := state → state * outcome A.

Definition ret {A} (a : A) : M A := λ s, (s, Return a).

Definition raise {A} (e : exn) : M A := λ s, (s, Raise e).

Definition bind {A B} (m : M A) (k : A → M B) : M B :=
  λ s, match m s with
       | (s', Return a) => k a s'
       | (s', Raise e) => (s', Raise e)
       end.

Declare Scope script_scope.
Delimit Scope script_scope with script.
Notation "x <- m ;; k" := (bind m (λ x, k))
  (at level 100, m at next level, right associativity) : script_scope.
Notation "m ;; k" := (bind m (λ _, k))
  (at level 100, right associativity) : script_scope.
Open Scope script_scope.

Definition emit (e : event) : M unit :=
  λ s, (State (fs s) (trace s ++ [e]), Return tt).

Definition get_fs : M (gmap (list string) node) := λ s, (s, Return (fs s)).

Definition set_fs (f : gmap (list string) node) : M unit :=
  λ s, (State f (trace s), Return tt).

(** [for x in l: body(x)] *)
Fixpoint for_each {A} (l : list A) (body : A → M unit) : M unit :=
  match l with
  | [] => ret tt
  | x :: l' => body x ;; for_each l' body
  end.

(** [enumerate(l, start)] *)
Fixpoint enumerate_from {A} (start : nat) (l : list A) : list (nat * A) :=
  match l with
  | [] => []
  | x :: l' => (start, x) :: enumerate_from (S start) l'
  end.

Definition enumerate {A} (l : list A) : list (nat * A) := enumerate_from 0 l.

(** ** [os] calls *)

Definition os_path_exists (p : string) : M bool :=
  f <- get_fs ;; ret (bool_decide (is_Some (lookup_path f p))).

Definition os_remove (p : string) : M unit :=
  f <- get_fs ;;
  if bool_decide (p = "") then raise (FileNotFoundError p)
  else match locate f p with
       | At k =>
           match lookup_key f k with
           | Some File => set_fs (delete k f) ;; emit (EvRemove p)
           | Some Dir => raise (IsADirectoryError p)
           | None => raise (FileNotFoundError p)
           end
       | NoEntry => raise (FileNotFoundError p)
       | NotDirectory => raise (NotADirectoryError p)
       end.

(** The checks of [os.mkdir(p)], and the key of the directory it makes.
    The directory that is to hold the new entry is resolved first; trailing
    separators do not count, and a path that ends in ["."] or [".."], or
    names the root, names a directory that exists. *)
Definition mkdir_entry (f : gmap (list string) node) (p : string)
  : list string + exn :=
  if bool_decide (p = "") then inr (FileNotFoundError p)
  else
    let comps := strip_trailing (components_from "" p) in
    if bool_decide (comps = []) then inr (FileExistsError p)
    else match walk f (start_key p) (removelast comps) with
         | At dir =>
             match lookup_key f dir with
             | Some Dir =>
                 let c := List.last comps "" in
                 if proper_component c then
                   match lookup_key f (dir ++ [c]) with
                   | Some _ => inr (FileExistsError p)
                   | None => inl (dir ++ [c])
                   end
                 else inr (FileExistsError p)
             | Some File => inr (NotADirectoryError p)
             | None => inr (FileNotFoundError p)
             end
         | NoEntry => inr (FileNotFoundError p)
         | NotDirectory => inr (NotADirectoryError p)
         end.

Definition os_mkdir (p : string) : M unit :=
  f <- get_fs ;;
  match mkdir_entry f p with
  | inl k => set_fs (<[k := Dir]> f) ;; emit (EvMkdir p)
  | inr e => raise e
  end.

(** ** The script *)

Record tuning_option := TuningOption {
  log_filename : string;
  tuner : string;
  early_stopping : option Z;
  opt_measure_option : measure_opt }.

(** The value [tune_kernels] takes for [n_trial] when the caller passes none. *)
Definition n_trial_default : Z := 1000.

(** ["[Task %2d/%2d] " % (i + 1, len(tasks))] *)
Definition task_prefix (i n : nat) : string :=
  "[Task " +:+ fmt_2d (i + 1) +:+ "/" +:+ fmt_2d n +:+ "] ".

(** Constructing a tuner object. *)
Definition new_tuner (t : tuner_obj) : M tuner_obj :=
  emit (EvNewTuner t) ;; ret t.

(** [if b: m] *)
Definition when (b : bool) (m : M unit) : M unit :=
  if b then m else ret tt.

(** The command line as [argparse] reads it: the options of the script in
    the order they are given, each with its value, and [-h]/[--help].  How
    [argparse] splits the words of a command line into options and values
    is not modelled. *)
Inductive cli_option :=
| OptNetwork (v : string)
| OptTarget (v : string)
| OptLogdir (v : string)
| OptThread (v : string)
| OptInputname (v : string)
| OptHelp.

Record namespace := Namespace {
  args_network : option string;
  args_target : string;
  args_logdir : string;
  args_thread : Z;
  args_inputname : string }.

Definition network_choices : list string :=
  ["resnet-50"; "mobilenet_v2"; "bert"; "all"].

(** Lines 120-140: the defaults of the five options. *)
Definition default_namespace : namespace :=
  {| args_network := None;
     args_target := "llvm -model=e5-2670 -mcpu=core-avx2";
     args_logdir := "tuning_logs/";
     args_thread := 1;
     args_inputname := "data" |}.

Inductive parse_result :=
| Parsed (ns : namespace)
| Exits (code : Z).

(** [argparse] takes the options from left to right.  A value is converted
    and checked when its option is reached: a [--network] value outside the
    choices, or a [--thread] value that [int] rejects, ends the run with
    status 2; [-h] prints the help and ends it with status 0.  A later
    occurrence of an option replaces an earlier one.  [py_int] is Python's
    [int] on strings, [None] where it raises [ValueError]. *)
Fixpoint scan (py_int : string → option Z) (argv : list cli_option) (ns : namespace)
  : parse_result :=
  match argv with
  | [] => Parsed ns
  | OptHelp :: _ => Exits 0
  | OptNetwork v :: rest =>
      if bool_decide (v ∈ network_choices) then
        scan py_int rest
          (Namespace (Some v) (args_target ns) (args_logdir ns) (args_thread ns)
             (args_inputname ns))
      else Exits 2
  | OptTarget v :: rest =>
      scan py_int rest
        (Namespace (args_network ns) v (args_logdir ns) (args_thread ns)
           (args_inputname ns))
  | OptLogdir v :: rest =>
      scan py_int rest
        (Namespace (args_network ns) (args_target ns) v (args_thread ns)
           (args_inputname ns))
  | OptThread v :: rest =>
      match py_int v with
      | Some n =>
          scan py_int rest
            (Namespace (args_network ns) (args_target ns) (args_logdir ns) n
               (args_inputname ns))
      | None => Exits 2
      end
  | OptInputname v :: rest =>
      scan py_int rest
        (Namespace (args_network ns) (args_target ns) (args_logdir ns)
           (args_thread ns) v)
  end.

(** Lines 145-148: the networks of a run. *)
Definition select_networks (args : namespace) : list string :=
  if bool_decide (args_network args = None) || bool_decide (args_network args = Some "all")
  then ["resnet-50"; "mobilenet_v2"; "bert"]
  else match args_network args with Some n => [n] | None => [] end.

Section Script.

(** What the script calls and does not define, taken as parameters:
    [get_network] of the repository's [util] module, which returns a module,
    its parameters and the input and output shapes, and the two library
    calls whose results steer the script, [tvm.target.Target(s)] and
    [autotvm.task.extract_from_program], and the builtin [int] that
    [argparse] applies to the value of [--thread]. *)
Variable util_get_network : string → ir_module * params * shape * shape.
Variable tvm_target_Target : string → target.
Variable extract_from_program : relay_func → target → params → list op → list task.
Variable py_int : string → option Z.

(** Lines 119-142: [parser.parse_args()]. *)
Definition parse_args (argv : list cli_option) : M namespace :=
  match scan py_int argv default_namespace with
  | Parsed ns => ret ns
  | Exits code => raise (SystemExit code)
  end.

(** The call [get_network(network)]. *)
Definition get_network (network : string) : M (ir_module * params * shape * shape) :=
  emit (EvGetNetwork network) ;; ret (util_get_network network).

(** The call [autotvm.task.extract_from_program(f, target, params, ops)]. *)
Definition extract (f : relay_func) (tgt : target) (p : params) (ops : list op)
  : M (list task) :=
  emit (EvExtract f tgt p ops) ;; ret (extract_from_program f tgt p ops).

(** Lines 46-68. *)
Definition autotvm_tuning_opt (tgt : target) (log_file : string) : M tuning_option :=
  mo <- (if bool_decide ("cpu" ∈ keys tgt) then
           emit (EvPrint "enable cpu tuning options") ;;
           ret (measure_option (LocalBuilder None)
                  (LocalRunner 1 10 None 0 (Some true)))
         else
           emit (EvPrint "enable gpu tuning options") ;;
           ret (measure_option (LocalBuilder (Some 10))
                  (LocalRunner 20 3 (Some 4) 150 None))) ;;
  ret {| log_filename := log_file;
         tuner := "xgb";
         early_stopping := None;
         opt_measure_option := mo |}.

(** Lines 81-90, the body of the loop of [tune_kernels] up to the tuner
    object. *)
Definition create_tuner (tuner : string) (tsk : task) : M tuner_obj :=
  if bool_decide (tuner = "xgb") || bool_decide (tuner = "xgb-rank") then
    new_tuner (XGBTuner tsk "rank")
  else if bool_decide (tuner = "ga") then new_tuner (GATuner tsk 100)
  else if bool_decide (tuner = "random") then new_tuner (RandomTuner tsk)
  else if bool_decide (tuner = "gridsearch") then new_tuner (GridSearchTuner tsk)
  else raise (ValueError ("Invalid tuner: " +:+ tuner)).

(** Lines 70-102. *)
Definition tune_kernels (tasks : list task) (mo : measure_opt) (tuner : string)
    (n_trial : Z) (early_stopping : option Z) (log_filename : string) : M unit :=
  for_each (enumerate (rev tasks)) (λ it,
    let '(i, tsk) := it in
    let prefix := task_prefix i (length tasks) in
    tuner_obj <- create_tuner tuner tsk ;;
    let tsk_trial := Z.min n_trial (Z.of_N (config_space_len tsk)) in
    emit (EvTune tuner_obj tsk_trial early_stopping mo
            [progress_bar tsk_trial prefix; log_to_file log_filename])).

(** Lines 106-114. *)
Definition tune_graph (graph : relay_func) (dshape : shape)
    (records opt_sch_file : string) (tgt : target) (input_name : string)
    (use_DP : bool) : M unit :=
  let target_op := [OpGet "nn.conv2d"] in
  let Tuner := if use_DP then DPTuner else PBQPTuner in
  let executor := GraphTuner Tuner graph [(input_name, dshape)] records target_op tgt in
  emit (EvNewGraphTuner executor) ;;
  emit (EvBenchmarkLayoutTransform executor 2000) ;;
  emit (EvRun executor) ;;
  emit (EvWriteOptSch executor opt_sch_file).

(** Lines 12-43.  [tune_kernels(tasks, **tuning_opt)] leaves [n_trial] to
    its default. *)
Definition autotvm_tune (network : string) (tgt : target)
    (input_name log_prefix : string) : M unit :=
  let graph_log := log_prefix +:+ "_graph.log" in
  let kernel_log := log_prefix +:+ "_kernel.log" in
  b <- os_path_exists kernel_log ;;
  when b (os_remove kernel_log) ;;
  b <- os_path_exists graph_log ;;
  when b (os_remove graph_log) ;;
  r <- get_network network ;;
  let '(mod0, params, input_shape, output_shape) := r in
  if bool_decide (network ∈ ["bert"]) then
    tuning_opt <- autotvm_tuning_opt tgt kernel_log ;;
    tasks <- extract (GetItem mod0 "main") tgt params
               [OpGet "nn.batch_matmul"; OpGet "nn.dense"] ;;
    tune_kernels tasks (opt_measure_option tuning_opt) (tuner tuning_opt)
      n_trial_default (early_stopping tuning_opt) (log_filename tuning_opt)
  else
    let desired_layouts := [("nn.conv2d", ["NCHW"; "default"])] in
    let seq := [RemoveUnusedFunctions; ConvertLayout desired_layouts] in
    let mod1 := SequentialApply seq 3 mod0 in
    tuning_opt <- autotvm_tuning_opt tgt kernel_log ;;
    tasks <- extract (GetItem mod1 "main") tgt params [OpGet "nn.conv2d"] ;;
    tune_kernels tasks (opt_measure_option tuning_opt) (tuner tuning_opt)
      n_trial_default (early_stopping tuning_opt) (log_filename tuning_opt) ;;
    when (bool_decide ("cpu" ∈ keys tgt))
      (tune_graph (GetItem mod1 "main") input_shape kernel_log graph_log
         tgt input_name true).

(** Lines 155-158. *)
Definition target_name_of (tgt : target) : string :=
  if bool_decide ("cpu" ∈ keys tgt) then "cpu" else "cuda".

(** Lines 118-161. *)
Definition main (argv : list cli_option) : M unit :=
  args <- parse_args argv ;;
  let networks := select_networks args in
  b <- os_path_exists (args_logdir args) ;;
  when (negb b) (os_mkdir (args_logdir args)) ;;
  let tgt := tvm_target_Target (args_target args) in
  let target_name := target_name_of tgt in
  for_each networks (λ network,
    let log_prefix :=
      os_path_join (args_logdir args)
        ("autotvm_" +:+ target_name +:+ "_" +:+ network) in
    autotvm_tune network tgt (args_inputname args) log_prefix).

End Script.

(** A concrete stand-in for the helper and the library, used to run the
    model. *)
Definition demo_get_network (network : string) : ir_module * params * shape * shape :=
  (NetworkModule network, NetworkParams network,
   NetworkInputShape network, NetworkOutputShape network).

Definition demo_Target (s : string) : target :=
  {| target_str := s;
     keys := if String.prefix "llvm" s then ["cpu"] else ["cuda"; "gpu"] |}.

Definition demo_extract (f : relay_func) (tgt : target) (p : params) (ops : list op)
  : list task :=
  [ {| task_name := "conv2d_a"; config_space_len := 400%N |};
    {| task_name := "conv2d_b"; config_space_len := 25000%N |} ].

(** [int] on strings of decimal digits, which is all the runs below give
    it. *)
Fixpoint digits_value (s : string) (acc : Z) : option Z :=
  match s with
  | EmptyString => Some acc
  | String c r =>
      let n := Z.of_nat (nat_of_ascii c) in
      if (48 <=? n) && (n <=? 57) then digits_value r (10 * acc + (n - 48))
      else None
  end.

Definition demo_int (s : string) : option Z :=
  if bool_decide (s = "") then None else digits_value s 0.

Definition demo_state : state :=
  State {[ ["tuning_logs"] := Dir;
           ["tuning_logs"; "autotvm_cpu_resnet-50_kernel.log"] := File ]} [].

(** ** Reading a run

    The events a computation adds to the trace, the log files an event has
    the framework write, and the networks and graph-tuner calls of a trace. *)

Definition new_events (s s' : state) : list event :=
  drop (length (trace s)) (trace s').

Definition callback_file (c : callback) : option string :=
  match c with
  | log_to_file f => Some f
  | progress_bar _ _ => None
  end.

Definition written_paths (e : event) : list string :=
  match e with
  | EvTune _ _ _ _ cbs => omap callback_file cbs
  | EvWriteOptSch _ f => [f]
  | _ => []
  end.

Definition written_files (tr : list event) : list string :=
  concat (map written_paths tr).

Definition network_of_event (e : event) : option string :=
  match e with
  | EvGetNetwork n => Some n
  | _ => None
  end.

Definition tuned_networks (tr : list event) : list string :=
  omap network_of_event tr.

Definition is_graph_event (e : event) : bool :=
  match e with
  | EvNewGraphTuner _ | EvBenchmarkLayoutTransform _ _ | EvRun _
  | EvWriteOptSch _ _ => true
  | _ => false
  end.

Definition is_remove (e : event) : bool :=
  match e with EvRemove _ => true | _ => false end.

Definition is_mkdir (e : event) : bool :=
  match e with EvMkdir _ => true | _ => false end.

Definition tuned_task (t : tuner_obj) : task :=
  match t with
  | XGBTuner tsk _ | GATuner tsk _ | RandomTuner tsk | GridSearchTuner tsk => tsk
  end.

(** The trials a [tune] call asks for, with the task of its tuner. *)
Definition trial_request (e : event) : option (task * Z) :=
  match e with
  | EvTune t k _ _ _ => Some (tuned_task t, k)
  | _ => None
  end.

Definition trial_requests (tr : list event) : list (task * Z) :=
  omap trial_request tr.

Definition recognized_tuners : list string :=
  ["xgb"; "xgb-rank"; "ga"; "random"; "gridsearch"].

(** The tuner object a recognized name stands for. *)
Definition tuner_for (tuner : string) (tsk : task) : tuner_obj :=
  if bool_decide (tuner ∈ ["xgb"; "xgb-rank"]) then XGBTuner tsk "rank"
  else if bool_decide (tuner = "ga") then GATuner tsk 100
  else if bool_decide (tuner = "random") then RandomTuner tsk
  else GridSearchTuner tsk.

(** The events of tuning one task: one tuner object, one call of [tune]. *)
Definition task_events (n : nat) (mo : measure_opt) (tuner : string) (n_trial : Z)
    (early_stopping : option Z) (log_filename : string) (it : nat * task)
  : list event :=
  let t := tuner_for tuner it.2 in
  let k := Z.min n_trial (Z.of_N (config_space_len it.2)) in
  [EvNewTuner t;
   EvTune t k early_stopping mo
     [progress_bar k (task_prefix it.1 n); log_to_file log_filename]].

(** The number of trials a [tune] call asks for stays within the task's
    configuration space and within [n_trial]. *)
Definition trials_bounded (n_trial : Z) (e : event) : Prop :=
  match e with
  | EvTune t k _ _ _ =>
      k = Z.min n_trial (Z.of_N (config_space_len (tuned_task t))) ∧
      k ≤ Z.of_N (config_space_len (tuned_task t)) ∧ k ≤ n_trial
  | _ => True
  end.

(** Removing a stale file, as a function on the file system. *)
Definition unlink (f : gmap (list string) node) (p : string) : gmap (list string) node :=
  match lookup_path f p with
  | Some File => delete (resolve p) f
  | _ => f
  end.

Definition unlink_events (f : gmap (list string) node) (p : string) : list event :=
  match lookup_path f p with
  | Some File => [EvRemove p]
  | _ => []
  end.

(** The log paths of a network, as [main] and [autotvm_tune] build them. *)
Definition log_prefix_of (logdir : string) (tgt : target) (network : string) : string :=
  os_path_join logdir ("autotvm_" +:+ target_name_of tgt +:+ "_" +:+ network).

Definition kernel_log_of (logdir : string) (tgt : target) (network : string) : string :=
  log_prefix_of logdir tgt network +:+ "_kernel.log".

Definition graph_log_of (logdir : string) (tgt : target) (network : string) : string :=
  log_prefix_of logdir tgt network +:+ "_graph.log".

(** ** The monad *)

Section Monad.
Context {A B : Type}.

Lemma bind_return (m : M A) (k : A → M B) s s' a :
  m s = (s', Return a) → bind m k s = k a s'.
Proof. intros H. unfold bind. by rewrite H. Qed.

Lemma bind_raise (m : M A) (k : A → M B) s s' e :
  m s = (s', Raise e) → bind m k s = (s', Raise e).
Proof. intros H. unfold bind. by rewrite H. Qed.

End Monad.

Lemma state_eta s : State (fs s) (trace s) = s.
Proof. by destruct s. Qed.

Lemma new_events_app s f evs : new_events s (State f (trace s ++ evs)) = evs.
Proof. unfold new_events. simpl. by rewrite drop_app_length. Qed.

(** ** [tune_kernels] *)

Section Kernels.
Variables (mo : measure_opt) (tuner : string) (n_trial : Z)
  (early_stopping : option Z) (log_filename : string).

Lemma create_tuner_ok tsk s :
  tuner ∈ recognized_tuners →
  create_tuner tuner tsk s =
    (State (fs s) (trace s ++ [EvNewTuner (tuner_for tuner tsk)]),
     Return (tuner_for tuner tsk)).
Proof.
  intros H. unfold recognized_tuners in H.
  repeat (apply elem_of_cons in H as [-> | H]); try by apply elem_of_nil in H.
  all: reflexivity.
Qed.

Lemma create_tuner_bad tsk s :
  tuner ∉ recognized_tuners →
  create_tuner tuner tsk s = (s, Raise (ValueError ("Invalid tuner: " +:+ tuner))).
Proof.
  intros H. unfold create_tuner.
  repeat (case_bool_decide;
    [ exfalso; apply H; subst; unfold recognized_tuners; set_solver | simpl ]).
  reflexivity.
Qed.

Lemma tune_loop_ok (n : nat) (l : list task) :
  tuner ∈ recognized_tuners →
  ∀ i s,
    for_each (enumerate_from i l) (λ it,
      let '(i, tsk) := it in
      let prefix := task_prefix i n in
      tuner_obj <- create_tuner tuner tsk ;;
      let tsk_trial := Z.min n_trial (Z.of_N (config_space_len tsk)) in
      emit (EvTune tuner_obj tsk_trial early_stopping mo
              [progress_bar tsk_trial prefix; log_to_file log_filename])) s =
    (State (fs s)
       (trace s ++
        concat (map (task_events n mo tuner n_trial early_stopping log_filename)
                  (enumerate_from i l))),
     Return tt).
Proof.
  intros Hrec. induction l as [| tsk l IH]; intros i s.
  - simpl. unfold ret. by rewrite app_nil_r, state_eta.
  - cbn [enumerate_from for_each map concat].
    erewrite bind_return; last first.
    { erewrite bind_return; [| by apply create_tuner_ok]. reflexivity. }
    rewrite IH. simpl. by rewrite <- !app_assoc.
Qed.

Lemma tune_loop_bad (n : nat) (l : list task) i s :
  tuner ∉ recognized_tuners → l ≠ [] →
  for_each (enumerate_from i l) (λ it,
    let '(i, tsk) := it in
    let prefix := task_prefix i n in
    tuner_obj <- create_tuner tuner tsk ;;
    let tsk_trial := Z.min n_trial (Z.of_N (config_space_len tsk)) in
    emit (EvTune tuner_obj tsk_trial early_stopping mo
            [progress_bar tsk_trial prefix; log_to_file log_filename])) s =
  (s, Raise (ValueError ("Invalid tuner: " +:+ tuner))).
Proof.
  intros Hbad Hne. destruct l as [| tsk l]; [done |].
  cbn [enumerate_from for_each].
  erewrite bind_raise; [reflexivity |].
  erewrite bind_raise; [reflexivity |]. by apply create_tuner_bad.
Qed.

Lemma tune_kernels_ok (tasks : list task) s :
  tuner ∈ recognized_tuners →
  tune_kernels tasks mo tuner n_trial early_stopping log_filename s =
    (State (fs s)
       (trace s ++
        concat (map (task_events (length tasks) mo tuner n_trial early_stopping
                       log_filename)
                  (enumerate (rev tasks)))),
     Return tt).
Proof. intros H. unfold tune_kernels, enumerate. by apply tune_loop_ok. Qed.

Lemma tune_kernels_bad (tasks : list task) s :
  tuner ∉ recognized_tuners → tasks ≠ [] →
  tune_kernels tasks mo tuner n_trial early_stopping log_filename s =
    (s, Raise (ValueError ("Invalid tuner: " +:+ tuner))).
Proof.
  intros H Hne. unfold tune_kernels, enumerate. apply tune_loop_bad; [done |].
  intros E. apply Hne. apply (f_equal (@rev task)) in E.
  by rewrite rev_involutive in E.
Qed.

Lemma tune_kernels_nil s :
  tune_kernels [] mo tuner n_trial early_stopping log_filename s = (s, Return tt).
Proof. reflexivity. Qed.

Lemma task_events_bounded n it :
  Forall (trials_bounded n_trial)
    (task_events n mo tuner n_trial early_stopping log_filename it).
Proof.
  assert (tuned_task (tuner_for tuner it.2) = it.2) as E.
  { unfold tuner_for. repeat case_bool_decide; reflexivity. }
  unfold task_events. apply Forall_cons; split; [exact I |].
  apply Forall_cons; split; [| by apply Forall_nil].
  simpl. rewrite E. lia.
Qed.

Lemma enumerate_from_snd {A} (l : list A) i : (enumerate_from i l).*2 = l.
Proof. revert i. induction l as [| x l IH]; intros i; simpl; [done |]. by rewrite IH. Qed.

Lemma enumerate_from_length {A} (l : list A) i : length (enumerate_from i l) = length l.
Proof. by rewrite <- (enumerate_from_snd l i) at 2; rewrite length_fmap. Qed.

End Kernels.

(** ** Paths *)

Fixpoint no_sep (s : string) : bool :=
  match s with
  | EmptyString => true
  | String c r => negb (bool_decide (c = sep)) && no_sep r
  end.

Lemma append_nil_l (b : string) : "" +:+ b = b.
Proof. reflexivity. Qed.

Lemma append_cons (x : ascii) (a b : string) : String x a +:+ b = String x (a +:+ b).
Proof. reflexivity. Qed.

Lemma append_nil_r (a : string) : a +:+ "" = a.
Proof. induction a as [| x a IH]; [done |]. by rewrite append_cons, IH. Qed.

Lemma append_assoc (a b c : string) : (a +:+ b) +:+ c = a +:+ (b +:+ c).
Proof.
  induction a as [| x a IH]; [done |]. by rewrite !append_cons, IH.
Qed.

Lemma append_inv_head (c a b : string) : c +:+ a = c +:+ b → a = b.
Proof. apply String.app_inj. Qed.

Lemma append_length (a b : string) :
  String.length (a +:+ b) = (String.length a + String.length b)%nat.
Proof.
  induction a as [| x a IH]; [done |]. rewrite append_cons. simpl. by rewrite IH.
Qed.

Lemma proper_component_long (c : string) :
  (3 ≤ String.length c)%nat → proper_component c = true.
Proof.
  intros H. unfold proper_component.
  destruct c as [| x [| y [| z c]]]; simpl in H; try lia.
  by rewrite !bool_decide_eq_false_2.
Qed.

Lemma enter_proper cur c : proper_component c = true → enter cur c = cur ++ [c].
Proof.
  unfold proper_component, enter. intros H. apply negb_true_iff in H.
  apply orb_false_iff in H as [H ->]. by rewrite H.
Qed.

Lemma enter_empty cur : enter cur "" = cur.
Proof. reflexivity. Qed.

Lemma above_cwd_snoc k c : above_cwd (k ++ [c]) = above_cwd k && bool_decide (c = "..").
Proof.
  unfold above_cwd. rewrite forallb_app. simpl. by rewrite andb_true_r.
Qed.

(** The key of a directory entry is no anchor. *)
Lemma is_anchor_entry k c :
  (3 ≤ String.length c)%nat → is_anchor (k ++ [c]) = false.
Proof.
  intros Hl. unfold is_anchor. rewrite above_cwd_snoc.
  rewrite (bool_decide_eq_false_2 (c = "..")) by (by intros ->; simpl in Hl; lia).
  rewrite andb_false_r. simpl.
  apply bool_decide_eq_false_2. intros E.
  destruct k as [| x [| y k]]; simplify_eq/=. lia.
Qed.

Lemma components_from_not_nil cur p : components_from cur p ≠ [].
Proof.
  revert cur. induction p as [| x p IH]; intros cur; simpl; [done |].
  case_bool_decide; [done | apply IH].
Qed.

Lemma components_from_no_sep cur p :
  no_sep p = true → components_from cur p = [cur +:+ p].
Proof.
  revert cur. induction p as [| x p IH]; intros cur H; simpl in *.
  - by rewrite append_nil_r.
  - apply andb_true_iff in H as [Hx Hp].
    case_bool_decide; [done |]. rewrite IH by done.
    by rewrite append_assoc.
Qed.

Lemma components_from_sep cur a b :
  components_from cur (a +:+ String sep b) =
  components_from cur a ++ components_from "" b.
Proof.
  revert cur. induction a as [| x a IH]; intros cur.
  - rewrite append_nil_l. reflexivity.
  - rewrite append_cons. simpl. case_bool_decide; simpl; by rewrite IH.
Qed.

Lemma components_from_suffix cur p suf :
  no_sep suf = true →
  components_from cur (p +:+ suf) =
  removelast (components_from cur p) ++
  [List.last (components_from cur p) "" +:+ suf].
Proof.
  intros Hs. revert cur. induction p as [| x p IH]; intros cur.
  - rewrite append_nil_l. simpl. by apply components_from_no_sep.
  - rewrite append_cons. cbn [components_from]. case_bool_decide.
    + rewrite IH. pose proof (components_from_not_nil "" p) as Hne.
      destruct (components_from "" p) as [| y l] eqn:E; [done |]. reflexivity.
    + apply IH.
Qed.

Lemma endswith_sep_split a : endswith_sep a = true → ∃ a', a = a' +:+ String sep "".
Proof.
  induction a as [| x a IH]; simpl; [done |].
  destruct a as [| y a].
  - intros H. apply bool_decide_eq_true in H as ->. by exists "".
  - intros H. destruct (IH H) as [a' E]. exists (String x a').
    by rewrite append_cons, <- E.
Qed.

Lemma startswith_sep_append a b : a ≠ "" → startswith_sep (a +:+ b) = startswith_sep a.
Proof. by destruct a. Qed.

Lemma no_sep_startswith a : no_sep a = true → startswith_sep a = false.
Proof.
  destruct a as [| x a]; simpl; [done |].
  intros H. apply andb_true_iff in H as [H _]. by apply negb_true_iff in H.
Qed.

(** The last component of a path that ends in a separator-free suffix of
    three or more characters. *)
Lemma resolve_suffix p suf :
  no_sep suf = true → (3 ≤ String.length suf)%nat →
  resolve (p +:+ suf) =
  fold_left enter (removelast (components_from "" p)) (start_key (p +:+ suf)) ++
  [List.last (components_from "" p) "" +:+ suf].
Proof.
  intros Hs Hl. unfold resolve. rewrite components_from_suffix by done.
  rewrite fold_left_app. simpl.
  apply enter_proper, proper_component_long. rewrite append_length. lia.
Qed.

Lemma resolve_suffix_last p suf :
  no_sep suf = true → (3 ≤ String.length suf)%nat →
  last (resolve (p +:+ suf)) =
  Some (List.last (components_from "" p) "" +:+ suf).
Proof. intros Hs Hl. rewrite resolve_suffix by done. apply last_snoc. Qed.

Lemma kernel_graph_distinct p :
  resolve (p +:+ "_kernel.log") ≠ resolve (p +:+ "_graph.log").
Proof.
  intros E. apply (f_equal last) in E.
  rewrite !resolve_suffix_last in E by (done || simpl; lia).
  injection E as E. by apply append_inv_head in E.
Qed.

(** Joining a directory and a file name adds one component. *)

Lemma components_join d name :
  d ≠ "" → no_sep name = true →
  ∃ comps, components_from "" (os_path_join d name) = comps ++ [name] ∧
           start_key (os_path_join d name) = start_key d ∧
           (components_from "" d = comps ∨ components_from "" d = comps ++ [""]).
Proof.
  intros Hd Hn. unfold os_path_join.
  rewrite (no_sep_startswith name) by done.
  rewrite bool_decide_eq_false_2 by done. simpl.
  destruct (endswith_sep d) eqn:E.
  - apply endswith_sep_split in E as [d' ->].
    exists (components_from "" d'). unfold start_key.
    rewrite (startswith_sep_append _ name Hd).
    rewrite append_assoc. rewrite append_cons, append_nil_l.
    rewrite !components_from_sep.
    rewrite (components_from_no_sep "" name) by done. simpl. auto.
  - exists (components_from "" d). unfold start_key.
    rewrite (startswith_sep_append _ _ Hd).
    change ("/" +:+ name) with (String sep name).
    rewrite components_from_sep, (components_from_no_sep "" name) by done. auto.
Qed.

Lemma resolve_join d name :
  d ≠ "" → no_sep name = true → proper_component name = true →
  resolve (os_path_join d name) = resolve d ++ [name].
Proof.
  intros Hd Hn Hl.
  destruct (components_join d name Hd Hn) as (comps & Ec & Es & [Ed | Ed]);
    unfold resolve; rewrite Ec, Es, Ed, !fold_left_app; simpl;
    by rewrite ?enter_empty, enter_proper.
Qed.

(** ** Path resolution *)

Lemma walk_app f cur l1 l2 :
  walk f cur (l1 ++ l2) =
  match walk f cur l1 with
  | At k => walk f k l2
  | w => w
  end.
Proof.
  revert cur. induction l1 as [| c l1 IH]; intros cur; simpl; [done |].
  destruct (lookup_key f cur) as [[] |]; auto.
Qed.

Lemma walk_key f cur comps k : walk f cur comps = At k → k = fold_left enter comps cur.
Proof.
  revert cur. induction comps as [| c comps IH]; intros cur; simpl.
  - congruence.
  - destruct (lookup_key f cur) as [[] |]; try done. apply IH.
Qed.

Lemma locate_key f p k : locate f p = At k → k = resolve p.
Proof. apply walk_key. Qed.

Lemma lookup_path_Some f p n :
  lookup_path f p = Some n →
  p ≠ "" ∧ locate f p = At (resolve p) ∧ lookup_key f (resolve p) = Some n.
Proof.
  unfold lookup_path. case_bool_decide; [done |].
  destruct (locate f p) as [k | |] eqn:E; try done.
  rewrite (locate_key _ _ _ E). auto.
Qed.

Lemma lookup_path_File f p :
  lookup_path f p = Some File → f !! resolve p = Some File.
Proof.
  intros H. apply lookup_path_Some in H as (_ & _ & H).
  unfold lookup_key in H. by destruct (is_anchor (resolve p)).
Qed.

(** A directory found at a path with a proper last component is in the
    map, at the key of the path. *)
Lemma lookup_path_dir_key f p suf :
  no_sep suf = true → (3 ≤ String.length suf)%nat →
  lookup_path f (p +:+ suf) = Some Dir → f !! resolve (p +:+ suf) = Some Dir.
Proof.
  intros Hs Hl H. apply lookup_path_Some in H as (_ & _ & H).
  unfold lookup_key in H. rewrite resolve_suffix in * by done.
  rewrite is_anchor_entry in H; [done |]. rewrite append_length. lia.
Qed.

(** Resolution only asks which keys are directories. *)
Definition same_dirs (f f' : gmap (list string) node) : Prop :=
  ∀ k, lookup_key f k = Some Dir ↔ lookup_key f' k = Some Dir.

Lemma walk_more_dirs f f' cur comps k :
  (∀ k, lookup_key f k = Some Dir → lookup_key f' k = Some Dir) →
  walk f cur comps = At k → walk f' cur comps = At k.
Proof.
  intros H. revert cur. induction comps as [| c comps IH]; intros cur; simpl; [done |].
  destruct (lookup_key f cur) as [[] |] eqn:E; try done.
  rewrite (H _ E). apply IH.
Qed.

Lemma walk_same_dirs f f' cur comps k :
  same_dirs f f' → walk f cur comps = At k ↔ walk f' cur comps = At k.
Proof.
  intros H. split; apply walk_more_dirs; intros k'; apply H.
Qed.

Lemma lookup_path_same_dirs f f' p :
  same_dirs f f' → lookup_key f' (resolve p) = lookup_key f (resolve p) →
  lookup_path f' p = lookup_path f p.
Proof.
  intros H Hk. unfold lookup_path. case_bool_decide; [done |].
  destruct (locate f p) as [k | |] eqn:E.
  - pose proof (locate_key _ _ _ E) as ->.
    assert (locate f' p = At (resolve p)) as ->; [| done].
    by apply (walk_same_dirs _ _ _ _ _ H).
  - destruct (locate f' p) as [k | |] eqn:E'; try done.
    apply (walk_same_dirs _ _ _ _ _ H) in E'. unfold locate in E. congruence.
  - destruct (locate f' p) as [k | |] eqn:E'; try done.
    apply (walk_same_dirs _ _ _ _ _ H) in E'. unfold locate in E. congruence.
Qed.

(** ** The file system under the script's own calls *)

(** Apart from the one [os.mkdir] of [main], the script only ever removes
    files: a later file system has the nodes of an earlier one, minus some
    files. *)
Definition fs_shrinks (f f' : gmap (list string) node) : Prop :=
  ∀ k, f' !! k = f !! k ∨ (f !! k = Some File ∧ f' !! k = None).

Lemma fs_shrinks_refl f : fs_shrinks f f.
Proof. intros k. by left. Qed.

Lemma fs_shrinks_trans f1 f2 f3 :
  fs_shrinks f1 f2 → fs_shrinks f2 f3 → fs_shrinks f1 f3.
Proof.
  intros H12 H23 k. destruct (H12 k) as [E | [E1 E2]], (H23 k) as [E' | [E1' E2']].
  - left. congruence.
  - right. split; congruence.
  - right. split; congruence.
  - congruence.
Qed.

Lemma fs_shrinks_same_dirs f f' : fs_shrinks f f' → same_dirs f f'.
Proof.
  intros H k. unfold lookup_key. destruct (is_anchor k); [done |].
  destruct (H k) as [-> | [-> ->]]; done.
Qed.

Lemma unlink_shrinks f p : fs_shrinks f (unlink f p).
Proof.
  unfold unlink.
  destruct (lookup_path f p) as [[] |] eqn:E; try apply fs_shrinks_refl.
  apply lookup_path_File in E.
  intros k. destruct (decide (k = resolve p)) as [-> | Hne].
  - right. by rewrite lookup_delete_eq.
  - left. by rewrite lookup_delete_ne.
Qed.

(** A path resolves as before, to the same node or to a file that is gone. *)
Lemma lookup_path_shrinks_cases f f' p :
  fs_shrinks f f' →
  lookup_path f' p = lookup_path f p ∨
  (lookup_path f p = Some File ∧ lookup_path f' p = None).
Proof.
  intros H. pose proof (fs_shrinks_same_dirs _ _ H) as Hd.
  unfold lookup_path. case_bool_decide; [by left |].
  destruct (locate f p) as [k | |] eqn:E.
  - assert (locate f' p = At k) as ->
      by by apply (walk_same_dirs _ _ _ _ _ Hd).
    unfold lookup_key. destruct (is_anchor k); [by left |].
    destruct (H k) as [-> | [-> ->]]; auto.
  - destruct (locate f' p) as [k | |] eqn:E'; auto.
    apply (walk_same_dirs _ _ _ _ _ Hd) in E'. unfold locate in E. congruence.
  - destruct (locate f' p) as [k | |] eqn:E'; auto.
    apply (walk_same_dirs _ _ _ _ _ Hd) in E'. unfold locate in E. congruence.
Qed.

Lemma lookup_path_shrinks f f' p :
  fs_shrinks f f' → lookup_path f p ≠ Some Dir → lookup_path f' p ≠ Some Dir.
Proof.
  intros H. destruct (lookup_path_shrinks_cases f f' p H) as [-> | [_ ->]]; done.
Qed.

Lemma lookup_path_shrinks_dir f f' p :
  fs_shrinks f f' → lookup_path f p = Some Dir → lookup_path f' p = Some Dir.
Proof.
  intros H. destruct (lookup_path_shrinks_cases f f' p H) as [-> | [-> _]]; done.
Qed.

Lemma lookup_path_none_shrinks f f' p :
  fs_shrinks f f' → lookup_path f p = None → lookup_path f' p = None.
Proof.
  intros H. destruct (lookup_path_shrinks_cases f f' p H) as [-> | [_ ->]]; done.
Qed.

Lemma lookup_path_unlink f p : lookup_path f p ≠ Some Dir → lookup_path (unlink f p) p = None.
Proof.
  unfold unlink. destruct (lookup_path f p) as [[] |] eqn:E; try done.
  intros _. pose proof (lookup_path_File _ _ E) as Hf.
  apply lookup_path_Some in E as (Hp & El & Ek).
  assert (same_dirs f (delete (resolve p) f)) as Hd.
  { apply fs_shrinks_same_dirs. intros k.
    destruct (decide (k = resolve p)) as [-> | Hne].
    - right. by rewrite lookup_delete_eq.
    - left. by rewrite lookup_delete_ne. }
  unfold lookup_path. rewrite bool_decide_eq_false_2 by done.
  assert (locate (delete (resolve p) f) p = At (resolve p)) as ->
    by by apply (walk_same_dirs _ _ _ _ _ Hd).
  unfold lookup_key in *. destruct (is_anchor (resolve p)); [congruence |].
  apply lookup_delete_eq.
Qed.

Lemma lookup_path_unlink_ne f p q :
  resolve q ≠ resolve p → lookup_path (unlink f p) q = lookup_path f q.
Proof.
  intros Hne. pose proof (unlink_shrinks f p) as Hs.
  apply lookup_path_same_dirs; [by apply fs_shrinks_same_dirs |].
  unfold unlink. destruct (lookup_path f p) as [[] |]; try done.
  unfold lookup_key. destruct (is_anchor (resolve q)); [done |].
  by apply lookup_delete_ne.
Qed.

(** ** The entry a path names

    [entry_of p parent name slashes]: the path [p] names the entry [name] of
    the directory [parent] (the working directory when [parent] is empty),
    with any number of separators after it. *)

Fixpoint only_sep (s : string) : bool :=
  match s with
  | EmptyString => true
  | String c r => bool_decide (c = sep) && only_sep r
  end.

Definition entry_of (p parent name slashes : string) : Prop :=
  p = parent +:+ name +:+ slashes ∧
  (parent = "" ∨ endswith_sep parent = true) ∧
  no_sep name = true ∧ proper_component name = true ∧ only_sep slashes = true.

Lemma components_from_only_sep cur sl :
  only_sep sl = true → components_from cur sl = cur :: replicate (String.length sl) "".
Proof.
  revert cur. induction sl as [| x sl IH]; intros cur H; simpl in *; [done |].
  apply andb_true_iff in H as [Hx Hs]. rewrite Hx. by rewrite IH.
Qed.

Lemma components_from_no_sep_app cur a b :
  no_sep a = true → components_from cur (a +:+ b) = components_from (cur +:+ a) b.
Proof.
  revert cur. induction a as [| x a IH]; intros cur H; simpl in *.
  - by rewrite append_nil_l, append_nil_r.
  - apply andb_true_iff in H as [Hx Ha].
    apply negb_true_iff in Hx. rewrite Hx, IH by done.
    by rewrite append_assoc.
Qed.

Lemma proper_component_ne c : proper_component c = true → c ≠ "".
Proof. by intros H ->. Qed.

Lemma entry_components p parent name slashes :
  entry_of p parent name slashes →
  ∃ A, components_from "" p = A ++ name :: replicate (String.length slashes) "" ∧
       components_from "" (parent +:+ name) = A ++ [name] ∧
       start_key (parent +:+ name) = start_key p ∧
       ((parent = "" ∧ A = [] ∧ start_key p = []) ∨
        (parent ≠ "" ∧ components_from "" parent = A ++ [""] ∧
         start_key parent = start_key p)).
Proof.
  intros (-> & Hpar & Hn & Hp & Hs).
  pose proof (proper_component_ne _ Hp) as Hne.
  destruct Hpar as [-> | He].
  - exists []. rewrite !append_nil_l.
    rewrite components_from_no_sep_app, append_nil_l by done.
    rewrite components_from_only_sep by done.
    rewrite (components_from_no_sep "" name), append_nil_l by done.
    unfold start_key. rewrite startswith_sep_append by done.
    rewrite no_sep_startswith by done. do 3 (split; [done |]). by left.
  - apply endswith_sep_split in He as [p' ->].
    exists (components_from "" p').
    assert (p' +:+ String sep "" ≠ "") as Hp'.
    { intros E. apply (f_equal String.length) in E. rewrite append_length in E.
      simpl in E. lia. }
    unfold start_key.
    rewrite (startswith_sep_append _ name Hp'),
      (startswith_sep_append _ (name +:+ slashes) Hp').
    assert (components_from "" (p' +:+ String sep "") = components_from "" p' ++ [""])
      as Ec by by rewrite components_from_sep.
    rewrite !append_assoc, !append_cons, !append_nil_l.
    rewrite !components_from_sep.
    rewrite (components_from_no_sep_app "" name slashes Hn), append_nil_l.
    rewrite (components_from_only_sep name slashes Hs).
    rewrite (components_from_no_sep "" name Hn), append_nil_l.
    do 3 (split; [done |]). by right.
Qed.

Lemma strip_trailing_replicate n : strip_trailing (replicate n "") = [].
Proof. induction n as [| n IH]; simpl; [done |]. by rewrite IH. Qed.

Lemma strip_trailing_entry l c n :
  c ≠ "" → strip_trailing (l ++ c :: replicate n "") = l ++ [c].
Proof.
  intros Hc. induction l as [| x l IH]; simpl.
  - by rewrite strip_trailing_replicate, bool_decide_eq_false_2.
  - rewrite IH. by destruct l.
Qed.

Lemma strip_trailing_split l : ∃ n, l = strip_trailing l ++ replicate n "".
Proof.
  induction l as [| c l [n IH]]; simpl; [by exists 0%nat |].
  destruct (strip_trailing l) as [| y r] eqn:E.
  - case_bool_decide as Hc.
    + exists (S n). simpl in *. by rewrite Hc, <- IH.
    + exists n. simpl in *. by rewrite <- IH.
  - exists n. simpl in *. by rewrite <- IH.
Qed.

Lemma fold_enter_empties n k : fold_left enter (replicate n "") k = k.
Proof. induction n as [| n IH]; simpl; [done |]. by rewrite enter_empty. Qed.

Lemma walk_empties f k n :
  lookup_key f k = Some Dir → walk f k (replicate n "") = At k.
Proof. intros H. induction n as [| n IH]; simpl; [done |]. by rewrite H. Qed.

Lemma lookup_key_insert f k : lookup_key (<[k := Dir]> f) k = Some Dir.
Proof. unfold lookup_key. destruct (is_anchor k); [done |]. apply lookup_insert_eq. Qed.

Lemma lookup_key_insert_ne f k k' nd :
  k ≠ k' → lookup_key (<[k := nd]> f) k' = lookup_key f k'.
Proof.
  intros H. unfold lookup_key. destruct (is_anchor k'); [done |].
  by apply lookup_insert_ne.
Qed.

Lemma lookup_key_None f k : lookup_key f k = None → f !! k = None.
Proof. unfold lookup_key. by destruct (is_anchor k). Qed.

(** What [os.mkdir] has made when it returns: the key is the one the path
    leads to, nothing was there, and afterwards the path is a directory. *)
Lemma mkdir_entry_inl f p k :
  mkdir_entry f p = inl k →
  p ≠ "" ∧ k = resolve p ∧ lookup_key f k = None ∧
  lookup_path (<[k := Dir]> f) p = Some Dir.
Proof.
  unfold mkdir_entry. case_bool_decide as Hp; [done |]. cbv zeta.
  case_bool_decide as Hc; [done |].
  destruct (walk f _ _) as [dir | |] eqn:Ew; try done.
  destruct (lookup_key f dir) as [[] |] eqn:Ed; try done.
  destruct (proper_component _) eqn:Epc; [| done].
  destruct (lookup_key f (dir ++ _)) eqn:Ek; [done |].
  intros [= <-]. set (c := List.last _ "") in *.
  set (f' := <[dir ++ [c] := Dir]> f).
  assert (∀ k', lookup_key f k' = Some Dir → lookup_key f' k' = Some Dir) as Hmore.
  { intros k' Hk'. subst f'. destruct (decide (dir ++ [c] = k')) as [<- | Hne].
    - apply lookup_key_insert.
    - by rewrite lookup_key_insert_ne. }
  assert (locate f' p = At (dir ++ [c])) as El.
  { unfold locate. destruct (strip_trailing_split (components_from "" p)) as [n ->].
    rewrite (app_removelast_last "" Hc). fold c.
    rewrite !walk_app, (walk_more_dirs _ _ _ _ _ Hmore Ew). simpl.
    rewrite (Hmore _ Ed), (enter_proper _ _ Epc).
    apply walk_empties, lookup_key_insert. }
  pose proof (locate_key _ _ _ El) as Hk.
  split; [done |]. split; [done |]. split; [done |].
  unfold lookup_path. rewrite bool_decide_eq_false_2, El by done.
  apply lookup_key_insert.
Qed.

Lemma mkdir_entry_inr f p e :
  mkdir_entry f p = inr e →
  e = FileNotFoundError p ∨ e = NotADirectoryError p ∨ e = FileExistsError p.
Proof.
  unfold mkdir_entry. case_bool_decide; [intros [= <-]; auto |]. cbv zeta.
  case_bool_decide; [intros [= <-]; auto |].
  destruct (walk f _ _) as [dir | |]; [| intros [= <-]; auto ..].
  destruct (lookup_key f dir) as [[] |]; [intros [= <-]; auto | | intros [= <-]; auto].
  destruct (proper_component _); [| intros [= <-]; auto].
  destruct (lookup_key f (dir ++ _)); [intros [= <-]; auto | done].
Qed.

(** [os.mkdir] on a path that names an entry. *)
Lemma mkdir_entry_of f p parent name slashes :
  entry_of p parent name slashes →
  ∃ A, components_from "" (parent +:+ name) = A ++ [name] ∧
       components_from "" p = A ++ name :: replicate (String.length slashes) "" ∧
       start_key (parent +:+ name) = start_key p ∧
       ((parent = "" ∧ A = [] ∧ start_key p = []) ∨
        (parent ≠ "" ∧ components_from "" parent = A ++ [""] ∧
         start_key parent = start_key p)) ∧
       mkdir_entry f p =
         match walk f (start_key p) A with
         | At dir =>
             match lookup_key f dir with
             | Some Dir =>
                 match lookup_key f (dir ++ [name]) with
                 | Some _ => inr (FileExistsError p)
                 | None => inl (dir ++ [name])
                 end
             | Some File => inr (NotADirectoryError p)
             | None => inr (FileNotFoundError p)
             end
         | NoEntry => inr (FileNotFoundError p)
         | NotDirectory => inr (NotADirectoryError p)
         end.
Proof.
  intros H. destruct (entry_components _ _ _ _ H) as (A & Ep & Epn & Es & Hcases).
  exists A. do 4 (split; [done |]).
  destruct H as (Hp & _ & _ & Hpc & _).
  pose proof (proper_component_ne _ Hpc) as Hne.
  unfold mkdir_entry. rewrite bool_decide_eq_false_2.
  2: { rewrite Hp. intros E. apply (f_equal String.length) in E.
       rewrite !append_length in E. destruct name; [done |]. simpl in E. lia. }
  cbv zeta. rewrite Ep, strip_trailing_entry by done.
  rewrite bool_decide_eq_false_2 by (by destruct A).
  rewrite removelast_last, last_last, Hpc. reflexivity.
Qed.

Lemma lookup_path_parent f parent A :
  parent ≠ "" → components_from "" parent = A ++ [""] →
  lookup_path f parent =
    match walk f (start_key parent) A with
    | At dir => match lookup_key f dir with Some Dir => Some Dir | _ => None end
    | _ => None
    end.
Proof.
  intros Hne Ec. unfold lookup_path, locate.
  rewrite bool_decide_eq_false_2, Ec, walk_app by done.
  destruct (walk f _ A) as [dir | |]; try done. simpl.
  by destruct (lookup_key f dir) as [[] |] eqn:E.
Qed.

Lemma lookup_path_entry f q A name dir :
  q ≠ "" → components_from "" q = A ++ [name] → proper_component name = true →
  walk f (start_key q) A = At dir → lookup_key f dir = Some Dir →
  lookup_path f q = lookup_key f (dir ++ [name]).
Proof.
  intros Hne Ec Hpc Ew Ed. unfold lookup_path, locate.
  rewrite bool_decide_eq_false_2, Ec, walk_app, Ew by done. simpl.
  by rewrite Ed, enter_proper.
Qed.

(** With the directory there and the entry not, [os.mkdir] makes the
    entry. *)
Lemma mkdir_entry_new f p parent name slashes :
  entry_of p parent name slashes →
  parent = "" ∨ lookup_path f parent = Some Dir →
  lookup_path f (parent +:+ name) = None →
  lookup_path f p = None ∧ mkdir_entry f p = inl (resolve p).
Proof.
  intros H Hpar Hnone.
  destruct (mkdir_entry_of f p parent name slashes H)
    as (A & Epn & Ep & Es & Hcases & Em).
  destruct H as (Hp & _ & _ & Hpc & _).
  pose proof (proper_component_ne _ Hpc) as Hne.
  assert (parent +:+ name ≠ "") as Hq.
  { intros E. apply (f_equal String.length) in E. rewrite append_length in E.
    destruct name; [done |]. simpl in E. lia. }
  assert (p ≠ "") as Hp0.
  { rewrite Hp. intros E. apply (f_equal String.length) in E.
    rewrite !append_length in E. destruct name; [done |]. simpl in E. lia. }
  assert (∃ dir, walk f (start_key p) A = At dir ∧ lookup_key f dir = Some Dir)
    as (dir & Ew & Ed).
  { destruct Hcases as [(-> & -> & ->) | (Hpne & Ec & Esp)].
    - by exists [].
    - destruct Hpar as [-> | Hpar]; [done |].
      rewrite (lookup_path_parent _ _ _ Hpne Ec), Esp in Hpar.
      destruct (walk f _ A) as [dir | |]; try done. exists dir.
      by destruct (lookup_key f dir) as [[] |]. }
  rewrite <- Es in Ew.
  rewrite (lookup_path_entry _ _ _ _ _ Hq Epn Hpc Ew Ed) in Hnone.
  rewrite Es in Ew. rewrite Ew, Ed, Hnone in Em.
  assert (locate f p = walk f (dir ++ [name]) (replicate (String.length slashes) ""))
    as El.
  { unfold locate. rewrite Ep, walk_app, Ew. simpl. by rewrite Ed, enter_proper. }
  split.
  - unfold lookup_path. rewrite bool_decide_eq_false_2, El by done.
    destruct (String.length slashes); simpl; [done |]. by rewrite Hnone.
  - rewrite Em. f_equal. unfold resolve. rewrite Ep, fold_left_app.
    rewrite <- (walk_key _ _ _ _ Ew). simpl. rewrite enter_proper by done.
    by rewrite fold_enter_empties.
Qed.

(** Without the directory, [os.mkdir] raises: nothing is made for it. *)
Lemma mkdir_entry_no_parent f p parent name slashes :
  entry_of p parent name slashes →
  parent ≠ "" → lookup_path f parent = None →
  lookup_path f p = None ∧
  (mkdir_entry f p = inr (FileNotFoundError p) ∨
   mkdir_entry f p = inr (NotADirectoryError p)).
Proof.
  intros H Hpne Hnone.
  destruct (mkdir_entry_of f p parent name slashes H)
    as (A & Epn & Ep & Es & Hcases & Em).
  destruct H as (Hp & _ & _ & Hpc & _).
  pose proof (proper_component_ne _ Hpc) as Hne.
  assert (p ≠ "") as Hp0.
  { rewrite Hp. intros E. apply (f_equal String.length) in E.
    rewrite !append_length in E. destruct name; [done |]. simpl in E. lia. }
  destruct Hcases as [(-> & _) | (_ & Ec & Esp)]; [done |].
  rewrite (lookup_path_parent _ _ _ Hpne Ec), Esp in Hnone.
  unfold lookup_path, locate. rewrite bool_decide_eq_false_2, Ep, walk_app by done.
  rewrite Em.
  destruct (walk f _ A) as [dir | |]; [| auto ..]. simpl.
  destruct (lookup_key f dir) as [[] |]; auto. done.
Qed.

(** [os.remove] in terms of what [os.stat] finds. *)
Lemma os_remove_cases p s :
  (lookup_path (fs s) p = Some File ∧
   os_remove p s = (State (unlink (fs s) p) (trace s ++ [EvRemove p]), Return tt)) ∨
  (lookup_path (fs s) p = Some Dir ∧ os_remove p s = (s, Raise (IsADirectoryError p))) ∨
  (lookup_path (fs s) p = None ∧ ∃ e, os_remove p s = (s, Raise e)).
Proof.
  unfold os_remove, unlink, lookup_path, bind, get_fs.
  case_bool_decide; [right; right; eauto |].
  destruct (locate (fs s) p) as [k | |] eqn:E; [| right; right; eauto ..].
  rewrite (locate_key _ _ _ E).
  destruct (lookup_key (fs s) (resolve p)) as [[] |]; eauto.
Qed.

(** ** Invariants of a computation

    [always Q m]: whatever the start state and whether [m] returns or raises,
    it only appends events that satisfy [Q] and only removes files. *)

Definition grows (Q : event → Prop) (s s' : state) : Prop :=
  (∃ evs, trace s' = trace s ++ evs ∧ Forall Q evs) ∧ fs_shrinks (fs s) (fs s').

Definition always {A} (Q : event → Prop) (m : M A) : Prop :=
  ∀ s, grows Q s (m s).1.

Lemma grows_refl Q s : grows Q s s.
Proof.
  split; [| apply fs_shrinks_refl]. exists []. by rewrite app_nil_r.
Qed.

Lemma grows_trans Q s1 s2 s3 : grows Q s1 s2 → grows Q s2 s3 → grows Q s1 s3.
Proof.
  intros [(e1 & E1 & F1) S1] [(e2 & E2 & F2) S2]. split.
  - exists (e1 ++ e2). rewrite E2, E1, app_assoc. split; [done |].
    by apply Forall_app.
  - by eapply fs_shrinks_trans.
Qed.

Lemma grows_new_events Q s s' : grows Q s s' → Forall Q (new_events s s').
Proof.
  intros [(evs & E & F) _]. unfold new_events. by rewrite E, drop_app_length.
Qed.

Section Always.
Context {A B : Type} (Q : event → Prop).

Lemma always_ret (a : A) : always Q (ret a).
Proof. intros s. apply grows_refl. Qed.

Lemma always_raise e : always Q (@raise A e).
Proof. intros s. apply grows_refl. Qed.

Lemma always_bind (m : M A) (k : A → M B) :
  always Q m → (∀ a, always Q (k a)) → always Q (bind m k).
Proof.
  intros Hm Hk s. unfold bind. specialize (Hm s).
  destruct (m s) as [s' [a | e]]; simpl in *; [| done].
  eapply grows_trans; [done | apply Hk].
Qed.

Lemma always_impl (Q' : event → Prop) (m : M A) :
  (∀ e, Q e → Q' e) → always Q m → always Q' m.
Proof.
  intros HQ Hm s. destruct (Hm s) as [(evs & E & F) S]. split; [| done].
  exists evs. split; [done |]. by eapply Forall_impl.
Qed.

End Always.

Lemma always_emit Q e : Q e → always Q (emit e).
Proof.
  intros H s. split; [| apply fs_shrinks_refl]. exists [e]. split; [done |].
  by apply Forall_singleton.
Qed.

Lemma always_when Q b m : always Q m → always Q (when b m).
Proof. intros H. destruct b; [done | apply always_ret]. Qed.

Lemma always_for_each {A} Q (l : list A) body :
  (∀ x, always Q (body x)) → always Q (for_each l body).
Proof.
  intros H. induction l as [| x l IH]; simpl; [apply always_ret |].
  apply always_bind; [apply H | done].
Qed.

Lemma always_os_path_exists Q p : always Q (os_path_exists p).
Proof. intros s. apply grows_refl. Qed.

Lemma always_os_remove Q p : Q (EvRemove p) → always Q (os_remove p).
Proof.
  intros H s.
  destruct (os_remove_cases p s) as [[_ ->] | [[_ ->] | [_ [e ->]]]];
    try apply grows_refl.
  split; [| apply unlink_shrinks].
  exists [EvRemove p]. split; [done |]. by apply Forall_singleton.
Qed.

(** ** One network: [autotvm_tune] *)

Definition cpu_measure_option : measure_opt :=
  measure_option (LocalBuilder None) (LocalRunner 1 10 None 0 (Some true)).

Definition gpu_measure_option : measure_opt :=
  measure_option (LocalBuilder (Some 10)) (LocalRunner 20 3 (Some 4) 150 None).

Definition has_cpu (tgt : target) : bool := bool_decide ("cpu" ∈ keys tgt).

Definition is_bert (network : string) : bool := bool_decide (network = "bert").

Definition measure_for (tgt : target) : measure_opt :=
  if has_cpu tgt then cpu_measure_option else gpu_measure_option.

Definition tuning_banner (tgt : target) : string :=
  if has_cpu tgt then "enable cpu tuning options" else "enable gpu tuning options".

Section Properties.
Variable util_get_network : string → ir_module * params * shape * shape.
Variable extract_from_program : relay_func → target → params → list op → list task.

(** The parts of [get_network(network)] the script uses. *)
Definition network_module (network : string) : ir_module :=
  (util_get_network network).1.1.1.

Definition network_params (network : string) : params :=
  (util_get_network network).1.1.2.

Definition network_input_shape (network : string) : shape :=
  (util_get_network network).1.2.

(** The module whose ["main"] is tuned, and the operators tasks are
    extracted for. *)
Definition tuned_module (network : string) : ir_module :=
  if is_bert network then network_module network
  else SequentialApply
         [RemoveUnusedFunctions;
          ConvertLayout [("nn.conv2d", ["NCHW"; "default"])]] 3
         (network_module network).

Definition tuned_ops (network : string) : list op :=
  if is_bert network then [OpGet "nn.batch_matmul"; OpGet "nn.dense"]
  else [OpGet "nn.conv2d"].

Definition graph_tuner_for (network : string) (tgt : target)
    (input_name log_prefix : string) : graph_executor :=
  GraphTuner DPTuner (GetItem (tuned_module network) "main")
    [(input_name, network_input_shape network)] (log_prefix +:+ "_kernel.log")
    [OpGet "nn.conv2d"] tgt.

Definition graph_phase (network : string) (tgt : target)
    (input_name log_prefix : string) : list event :=
  if negb (is_bert network) && has_cpu tgt then
    let ex := graph_tuner_for network tgt input_name log_prefix in
    [EvNewGraphTuner ex; EvBenchmarkLayoutTransform ex 2000; EvRun ex;
     EvWriteOptSch ex (log_prefix +:+ "_graph.log")]
  else [].


Definition extracted (network : string) (tgt : target) : list task :=
  extract_from_program (GetItem (tuned_module network) "main") tgt
    (network_params network) (tuned_ops network).

Definition kernel_phase (network : string) (tgt : target) (log_prefix : string)
  : list event :=
  [EvPrint (tuning_banner tgt);
   EvExtract (GetItem (tuned_module network) "main") tgt (network_params network)
     (tuned_ops network)] ++
  concat (map (task_events (length (extracted network tgt)) (measure_for tgt) "xgb"
                 n_trial_default None (log_prefix +:+ "_kernel.log"))
            (enumerate (rev (extracted network tgt)))).

Definition run_events (network : string) (tgt : target)
    (input_name log_prefix : string) (f : gmap (list string) node) : list event :=
  unlink_events f (log_prefix +:+ "_kernel.log") ++
  unlink_events f (log_prefix +:+ "_graph.log") ++
  [EvGetNetwork network] ++
  kernel_phase network tgt log_prefix ++
  graph_phase network tgt input_name log_prefix.

Lemma autotvm_tuning_opt_run tgt log_file s :
  autotvm_tuning_opt tgt log_file s =
    (State (fs s) (trace s ++ [EvPrint (tuning_banner tgt)]),
     Return {| log_filename := log_file; tuner := "xgb"; early_stopping := None;
               opt_measure_option := measure_for tgt |}).
Proof.
  unfold autotvm_tuning_opt, tuning_banner, measure_for, has_cpu.
  by case_bool_decide.
Qed.

(** The guarded removal of a stale log, with the rest of the function as
    its continuation. *)
Lemma stale_removed {A} p (k : M A) s :
  lookup_path (fs s) p ≠ Some Dir →
  (b <- os_path_exists p ;; when b (os_remove p) ;; k) s =
  k (State (unlink (fs s) p) (trace s ++ unlink_events (fs s) p)).
Proof.
  intros H. unfold bind at 1 2. unfold os_path_exists, get_fs, ret. simpl.
  destruct (os_remove_cases p s) as [[E Er] | [[E _] | [E _]]]; [| done |].
  - unfold unlink_events. rewrite E. simpl. by rewrite Er.
  - unfold unlink, unlink_events. rewrite E. simpl.
    by rewrite app_nil_r, state_eta.
Qed.

Lemma stale_is_directory {A} p (k : M A) s :
  lookup_path (fs s) p = Some Dir →
  (b <- os_path_exists p ;; when b (os_remove p) ;; k) s =
  (s, Raise (IsADirectoryError p)).
Proof.
  intros H. unfold bind at 1 2. unfold os_path_exists, get_fs, ret. simpl.
  rewrite H. simpl.
  destruct (os_remove_cases p s) as [[E _] | [[_ ->] | [E _]]]; congruence.
Qed.

Lemma tune_graph_run graph dshape records opt_sch_file tgt input_name use_DP s :
  tune_graph graph dshape records opt_sch_file tgt input_name use_DP s =
    let ex := GraphTuner (if use_DP then DPTuner else PBQPTuner) graph
                [(input_name, dshape)] records [OpGet "nn.conv2d"] tgt in
    (State (fs s)
       (trace s ++
        [EvNewGraphTuner ex; EvBenchmarkLayoutTransform ex 2000; EvRun ex;
         EvWriteOptSch ex opt_sch_file]),
     Return tt).
Proof.
  unfold tune_graph, bind, emit. simpl. by rewrite <- !app_assoc.
Qed.

(** A directory where the kernel log goes stops the run at [os.remove]. *)
Lemma autotvm_tune_kernel_log_directory network tgt input_name log_prefix s :
  lookup_path (fs s) (log_prefix +:+ "_kernel.log") = Some Dir →
  autotvm_tune util_get_network extract_from_program network tgt input_name
    log_prefix s =
    (s, Raise (IsADirectoryError (log_prefix +:+ "_kernel.log"))).
Proof. intros H. unfold autotvm_tune. by rewrite stale_is_directory. Qed.

Lemma autotvm_tune_ok network tgt input_name log_prefix s :
  lookup_path (fs s) (log_prefix +:+ "_kernel.log") ≠ Some Dir →
  lookup_path (fs s) (log_prefix +:+ "_graph.log") ≠ Some Dir →
  autotvm_tune util_get_network extract_from_program network tgt input_name log_prefix s =
    (State (unlink (unlink (fs s) (log_prefix +:+ "_kernel.log"))
              (log_prefix +:+ "_graph.log"))
       (trace s ++ run_events network tgt input_name log_prefix (fs s)),
     Return tt).
Proof.
  intros Hk Hg. unfold autotvm_tune.
  rewrite stale_removed by done.
  rewrite stale_removed; last first.
  { simpl. rewrite lookup_path_unlink_ne; [done |].
    intros E. by apply (kernel_graph_distinct log_prefix). }
  simpl.
  assert (unlink_events (unlink (fs s) (log_prefix +:+ "_kernel.log"))
            (log_prefix +:+ "_graph.log") =
          unlink_events (fs s) (log_prefix +:+ "_graph.log")) as ->.
  { unfold unlink_events. rewrite lookup_path_unlink_ne; [done |].
    intros E. by apply (kernel_graph_distinct log_prefix). }
  set (f' := unlink (unlink (fs s) _) _).
  erewrite bind_return; [| reflexivity]. cbv beta iota.
  unfold run_events, kernel_phase, graph_phase, extracted, graph_tuner_for,
    tuned_module, tuned_ops, network_module, network_params, network_input_shape,
    is_bert, has_cpu.
  destruct (util_get_network network) as [[[mod0 ps] ishape] oshape]. cbn [fst snd].
  destruct (decide (network = "bert")) as [-> | Hne].
  - rewrite bool_decide_eq_true_2 by (by apply list_elem_of_singleton).
    rewrite (bool_decide_eq_true_2 ("bert" = "bert")) by done.
    erewrite bind_return; [| apply autotvm_tuning_opt_run].
    erewrite bind_return; [| reflexivity].
    rewrite tune_kernels_ok by (unfold recognized_tuners; set_solver).
    simpl. f_equal. f_equal. rewrite <- !app_assoc. simpl.
    by rewrite ?app_nil_r.
  - rewrite bool_decide_eq_false_2 by (by intros ?%list_elem_of_singleton).
    rewrite (bool_decide_eq_false_2 (network = "bert")) by done.
    erewrite bind_return; [| apply autotvm_tuning_opt_run].
    erewrite bind_return; [| reflexivity].
    erewrite bind_return;
      [| apply tune_kernels_ok; unfold recognized_tuners; set_solver].
    simpl. case_bool_decide; simpl.
    + rewrite tune_graph_run. simpl.
      f_equal. f_equal. rewrite <- !app_assoc. simpl.
      by rewrite ?app_nil_r.
    + unfold ret. f_equal. f_equal. rewrite <- !app_assoc. simpl.
      by rewrite ?app_nil_r.
Qed.

(** What one run of [autotvm_tune] may add to the trace, whether it returns
    or raises. *)
Definition tune_event_ok (network : string) (tgt : target) (log_prefix : string)
    (e : event) : Prop :=
  match e with
  | EvMkdir _ => False
  | EvRemove p => p = log_prefix +:+ "_kernel.log" ∨ p = log_prefix +:+ "_graph.log"
  | EvGetNetwork n => n = network
  | EvTune _ _ _ _ cbs =>
      omap callback_file cbs = [log_prefix +:+ "_kernel.log"] ∧
      trials_bounded n_trial_default e
  | EvWriteOptSch ex f =>
      f = log_prefix +:+ "_graph.log" ∧
      gt_records ex = log_prefix +:+ "_kernel.log" ∧
      network ≠ "bert" ∧ "cpu" ∈ keys tgt
  | _ => True
  end.

Lemma always_tune_kernels Q tasks mo tuner n_trial early_stopping log_filename :
  (∀ n it, Forall Q (task_events n mo tuner n_trial early_stopping log_filename it)) →
  always Q (tune_kernels tasks mo tuner n_trial early_stopping log_filename).
Proof.
  intros HQ s. destruct (decide (tuner ∈ recognized_tuners)) as [Hr | Hr].
  - rewrite tune_kernels_ok by done. split; [| apply fs_shrinks_refl].
    eexists. split; [reflexivity |]. simpl.
    apply Forall_concat, Forall_map, Forall_forall. intros it _. apply HQ.
  - destruct tasks as [| tsk tasks].
    + rewrite tune_kernels_nil. apply grows_refl.
    + rewrite tune_kernels_bad by done. apply grows_refl.
Qed.

Lemma always_autotvm_tune network tgt input_name log_prefix :
  always (tune_event_ok network tgt log_prefix)
    (autotvm_tune util_get_network extract_from_program network tgt input_name log_prefix).
Proof.
  assert (∀ s m, grows (tune_event_ok network tgt log_prefix) s (State (fs s) (trace s ++ m))
                 ↔ Forall (tune_event_ok network tgt log_prefix) m) as Hg.
  { intros s m. split.
    - intros [(evs & E & F) _]. simpl in E. by apply app_inv_head in E as ->.
    - intros F. split; [by exists m | apply fs_shrinks_refl]. }
  unfold autotvm_tune.
  apply always_bind; [apply always_os_path_exists | intros b].
  apply always_bind; [apply always_when, always_os_remove; by left | intros _].
  apply always_bind; [apply always_os_path_exists | intros b'].
  apply always_bind; [apply always_when, always_os_remove; by right | intros _].
  apply always_bind.
  { apply always_bind; [by apply always_emit | intros _; apply always_ret]. }
  intros [[[mod0 ps] ishape] oshape].
  assert (∀ log, always (tune_event_ok network tgt log_prefix) (autotvm_tuning_opt tgt log))
    as Hopt.
  { intros log s. rewrite autotvm_tuning_opt_run. apply Hg. by repeat constructor. }
  assert (∀ f ops, always (tune_event_ok network tgt log_prefix)
                     (extract extract_from_program f tgt ps ops)) as Hex.
  { intros f ops. apply always_bind; [by apply always_emit | intros _; apply always_ret]. }
  assert (∀ tasks mo,
    always (tune_event_ok network tgt log_prefix)
      (tune_kernels tasks mo "xgb" n_trial_default None (log_prefix +:+ "_kernel.log")))
    as Hker.
  { intros tasks mo. apply always_tune_kernels. intros n it.
    pose proof (task_events_bounded mo "xgb" n_trial_default None
                  (log_prefix +:+ "_kernel.log") n it) as Hb.
    unfold task_events in *. apply Forall_cons in Hb as [_ Hb].
    apply Forall_cons in Hb as [Hb _].
    apply Forall_cons; split; [exact I |]. by apply Forall_singleton. }
  case_bool_decide.
  - intros s. rewrite (bind_return _ _ _ _ _ (autotvm_tuning_opt_run _ _ s)).
    eapply grows_trans; [apply (Hopt (log_prefix +:+ "_kernel.log") s) |].
    rewrite autotvm_tuning_opt_run. simpl.
    apply always_bind; [apply Hex | intros tasks; apply Hker].
  - intros s. rewrite (bind_return _ _ _ _ _ (autotvm_tuning_opt_run _ _ s)).
    eapply grows_trans; [apply (Hopt (log_prefix +:+ "_kernel.log") s) |].
    rewrite autotvm_tuning_opt_run. simpl.
    apply always_bind; [apply Hex | intros tasks].
    apply always_bind; [apply Hker | intros _].
    case_bool_decide; [| apply always_ret].
    intros s'. unfold when. rewrite tune_graph_run. apply Hg.
    assert (network ≠ "bert") by (by intros ->; apply H, list_elem_of_singleton).
    by repeat constructor.
Qed.

(** ** The claims about one network *)

(** C5. [autotvm_tuning_opt] picks the measure options by device class.  With
    "cpu" among the target's keys: a default [LocalBuilder] and a
    [LocalRunner] with number=1, repeat=10, min_repeat_ms=0,
    enable_cpu_cache_flush=True.  Otherwise: [LocalBuilder(timeout=10)] and
    a [LocalRunner] with number=20, repeat=3, timeout=4, min_repeat_ms=150.
    Either way the options carry tuner "xgb", early_stopping None and the
    given log file. *)
Theorem tuning_opt_by_device_class tgt log_file s :
  (autotvm_tuning_opt tgt log_file s).2 =
  Return {| log_filename := log_file;
            tuner := "xgb";
            early_stopping := None;
            opt_measure_option :=
              if bool_decide ("cpu" ∈ keys tgt) then
                {| builder := {| builder_timeout := None |};
                   runner := {| number := 1; repeat := 10; runner_timeout := None;
                                min_repeat_ms := 0;
                                enable_cpu_cache_flush := Some true |} |}
              else
                {| builder := {| builder_timeout := Some 10 |};
                   runner := {| number := 20; repeat := 3; runner_timeout := Some 4;
                                min_repeat_ms := 150;
                                enable_cpu_cache_flush := None |} |} |}.
Proof. by rewrite autotvm_tuning_opt_run. Qed.

(** C3. On a non-empty task list, a tuner name outside "xgb", "xgb-rank",
    "ga", "random", "gridsearch" makes [tune_kernels] raise [ValueError]
    with nothing done (the state, trace included, is the one it started
    from); with one of the five names it returns without raising. *)
Theorem unknown_tuner_raises tasks mo tuner n_trial early_stopping log_filename s :
  tasks ≠ [] →
  (tuner ∉ ["xgb"; "xgb-rank"; "ga"; "random"; "gridsearch"] →
   tune_kernels tasks mo tuner n_trial early_stopping log_filename s =
     (s, Raise (ValueError ("Invalid tuner: " +:+ tuner)))) ∧
  (tuner ∈ ["xgb"; "xgb-rank"; "ga"; "random"; "gridsearch"] →
   ∃ s', tune_kernels tasks mo tuner n_trial early_stopping log_filename s =
           (s', Return tt)).
Proof.
  intros Hne. split; intros H.
  - by apply tune_kernels_bad.
  - eexists. by apply tune_kernels_ok.
Qed.

(** C6. With a recognized tuner name, [tune_kernels] goes through the tasks
    in reversed order and does, for each task and nothing else, exactly two
    things: it constructs one tuner object for that task and calls its
    [tune] once, with a progress-bar callback and a log-to-file callback on
    the configured log file. *)
Theorem kernels_tuned_once_each tasks mo tuner n_trial early_stopping log_filename s :
  tuner ∈ recognized_tuners →
  ∃ s',
    tune_kernels tasks mo tuner n_trial early_stopping log_filename s =
      (s', Return tt) ∧
    fs s' = fs s ∧
    new_events s s' =
      concat (map (λ it : nat * task,
                let t := tuner_for tuner it.2 in
                let k := Z.min n_trial (Z.of_N (config_space_len it.2)) in
                [EvNewTuner t;
                 EvTune t k early_stopping mo
                   [progress_bar k (task_prefix it.1 (length tasks));
                    log_to_file log_filename]])
              (enumerate (rev tasks))) ∧
    (enumerate (rev tasks)).*2 = rev tasks ∧
    ∀ tsk, tuned_task (tuner_for tuner tsk) = tsk.
Proof.
  intros H. eexists. split; [by apply tune_kernels_ok |].
  split; [done |]. split; [by rewrite new_events_app |].
  split; [apply enumerate_from_snd |].
  intros tsk. unfold tuner_for. by repeat case_bool_decide.
Qed.

Lemma filter_none {A} (f : A → bool) (l : list A) :
  Forall (λ x, f x = false) l → List.filter f l = [].
Proof. induction 1 as [| x l Hx _ IH]; simpl; [done |]. by rewrite Hx. Qed.

Lemma filter_all {A} (f : A → bool) (l : list A) :
  Forall (λ x, f x = true) l → List.filter f l = l.
Proof. induction 1 as [| x l Hx _ IH]; simpl; [done |]. by rewrite Hx, IH. Qed.

Lemma unlink_events_removes f p :
  Forall (λ e, is_remove e = true ∧ is_graph_event e = false ∧ written_paths e = [])
    (unlink_events f p).
Proof. unfold unlink_events. destruct (lookup_path f p) as [[] |]; by repeat constructor. Qed.

Lemma kernel_phase_events network tgt log_prefix :
  Forall (λ e, is_remove e = false ∧ is_graph_event e = false ∧
               ∀ p, p ∈ written_paths e → p = log_prefix +:+ "_kernel.log")
    (kernel_phase network tgt log_prefix).
Proof.
  unfold kernel_phase. apply Forall_app. split.
  - repeat constructor; simpl; by intros p ?%elem_of_nil.
  - apply Forall_concat, Forall_map, Forall_forall. intros it _.
    unfold task_events. repeat constructor; simpl.
    + by intros p ?%elem_of_nil.
    + by intros p ->%list_elem_of_singleton.
Qed.

Lemma graph_phase_events network tgt input_name log_prefix :
  Forall (λ e, is_remove e = false ∧ is_graph_event e = true)
    (graph_phase network tgt input_name log_prefix).
Proof. unfold graph_phase. destruct (_ && _); by repeat constructor. Qed.

(** C2. In a run of [autotvm_tune] the graph tuner is run exactly when the
    network is not "bert" and "cpu" is among the target's keys.  When it
    runs, it comes after all kernel tuning, its records input is the kernel
    log that tuning wrote, and its result goes to the graph log. *)
Theorem graph_tuner_gate network tgt input_name log_prefix s :
  lookup_path (fs s) (log_prefix +:+ "_kernel.log") ≠ Some Dir →
  lookup_path (fs s) (log_prefix +:+ "_graph.log") ≠ Some Dir →
  let evs :=
    new_events s
      (autotvm_tune util_get_network extract_from_program network tgt input_name log_prefix s).1 in
  let graph_events :=
    if bool_decide (network ≠ "bert" ∧ "cpu" ∈ keys tgt) then
      let ex := GraphTuner DPTuner (GetItem (tuned_module network) "main")
                  [(input_name, network_input_shape network)]
                  (log_prefix +:+ "_kernel.log") [OpGet "nn.conv2d"] tgt in
      [EvNewGraphTuner ex; EvBenchmarkLayoutTransform ex 2000; EvRun ex;
       EvWriteOptSch ex (log_prefix +:+ "_graph.log")]
    else [] in
  List.filter is_graph_event evs = graph_events ∧
  ∃ before, evs = before ++ graph_events ∧
    Forall (λ e, is_graph_event e = false ∧
                 ∀ p, p ∈ written_paths e → p = log_prefix +:+ "_kernel.log") before.
Proof.
  intros Hk Hg evs graph_events. subst evs.
  rewrite autotvm_tune_ok by done. simpl. rewrite new_events_app.
  assert (graph_events = graph_phase network tgt input_name log_prefix) as ->.
  { subst graph_events. unfold graph_phase, graph_tuner_for, is_bert, has_cpu.
    repeat case_bool_decide; simpl; try done; tauto. }
  unfold run_events.
  set (before := unlink_events (fs s) (log_prefix +:+ "_kernel.log") ++
                 unlink_events (fs s) (log_prefix +:+ "_graph.log") ++
                 [EvGetNetwork network] ++ kernel_phase network tgt log_prefix).
  assert (Forall (λ e, is_graph_event e = false ∧
            ∀ p, p ∈ written_paths e → p = log_prefix +:+ "_kernel.log") before) as Hb.
  { subst before. apply Forall_app_2; [| apply Forall_app_2; [| apply Forall_app_2]].
    - eapply Forall_impl; [apply unlink_events_removes |].
      intros e (_ & ? & ->). split; [done |]. by intros p ?%elem_of_nil.
    - eapply Forall_impl; [apply unlink_events_removes |].
      intros e (_ & ? & ->). split; [done |]. by intros p ?%elem_of_nil.
    - repeat constructor. by intros p ?%elem_of_nil.
    - eapply Forall_impl; [apply kernel_phase_events |]. by intros e (_ & ? & ?). }
  assert (∀ g, unlink_events (fs s) (log_prefix +:+ "_kernel.log") ++
               unlink_events (fs s) (log_prefix +:+ "_graph.log") ++
               [EvGetNetwork network] ++ kernel_phase network tgt log_prefix ++ g =
               before ++ g) as ->.
  { intros g. subst before. by rewrite <- !app_assoc. }
  split; [| by exists before].
  rewrite List.filter_app, filter_none, filter_all; [done | |].
  - eapply Forall_impl; [apply graph_phase_events |]. by intros e [_ ?].
  - eapply Forall_impl; [apply Hb |]. by intros e [? _].
Qed.

(** C4. A run of [autotvm_tune] starts by removing the kernel log and then
    the graph log, each exactly when a file is there; only then come
    [get_network], task extraction and tuning, among which nothing is
    removed.  A log that is not there is skipped and the run goes on to
    return.  (The file system of the model changes only through the
    script's own [os] calls.) *)
Theorem stale_logs_removed_first network tgt input_name log_prefix s :
  let kernel_log := log_prefix +:+ "_kernel.log" in
  let graph_log := log_prefix +:+ "_graph.log" in
  lookup_path (fs s) kernel_log ≠ Some Dir →
  lookup_path (fs s) graph_log ≠ Some Dir →
  ∃ s' rest,
    autotvm_tune util_get_network extract_from_program network tgt input_name log_prefix s =
      (s', Return tt) ∧
    trace s' =
      trace s ++
      (if bool_decide (lookup_path (fs s) kernel_log = Some File)
       then [EvRemove kernel_log] else []) ++
      (if bool_decide (lookup_path (fs s) graph_log = Some File)
       then [EvRemove graph_log] else []) ++
      EvGetNetwork network :: rest ∧
    Forall (λ e, is_remove e = false) rest ∧
    lookup_path (fs s') kernel_log = None ∧
    lookup_path (fs s') graph_log = None.
Proof.
  intros kernel_log graph_log Hk Hg.
  eexists _, (kernel_phase network tgt log_prefix ++
              graph_phase network tgt input_name log_prefix).
  split; [by apply autotvm_tune_ok |]. cbn [fs trace]. split; [| split; [| split]].
  - assert (∀ p, unlink_events (fs s) p =
                 if bool_decide (lookup_path (fs s) p = Some File)
                 then [EvRemove p] else []) as Hu.
    { intros p. unfold unlink_events.
      destruct (lookup_path (fs s) p) as [[] |]; by case_bool_decide. }
    unfold run_events. by rewrite !Hu.
  - apply Forall_app. split.
    + eapply Forall_impl; [apply kernel_phase_events |]. by intros e [? _].
    + eapply Forall_impl; [apply graph_phase_events |]. by intros e [? _].
  - eapply lookup_path_none_shrinks; [apply unlink_shrinks |].
    by apply lookup_path_unlink.
  - apply lookup_path_unlink. eapply lookup_path_shrinks; [apply unlink_shrinks | done].
Qed.

(** ** The whole script: [main] *)

(** What [parse_args] makes of a command line: whether it returns, the
    namespace it returns, and the status it exits with otherwise. *)
Definition accepted (py_int : string → option Z) (argv : list cli_option) : bool :=
  match scan py_int argv default_namespace with
  | Parsed _ => true
  | Exits _ => false
  end.

Definition namespace_of (py_int : string → option Z) (argv : list cli_option)
  : namespace :=
  match scan py_int argv default_namespace with
  | Parsed ns => ns
  | Exits _ => default_namespace
  end.

Definition exit_status (py_int : string → option Z) (argv : list cli_option) : Z :=
  match scan py_int argv default_namespace with
  | Parsed _ => 0
  | Exits code => code
  end.

(** The loop of [main] over the selected networks. *)
Definition tune_all (networks : list string) (logdir : string) (tgt : target)
    (input_name : string) : M unit :=
  for_each networks (λ network,
    autotvm_tune util_get_network extract_from_program network tgt input_name
      (log_prefix_of logdir tgt network)).

Lemma parse_args_run py_int argv s :
  parse_args py_int argv s =
    if accepted py_int argv then (s, Return (namespace_of py_int argv))
    else (s, Raise (SystemExit (exit_status py_int argv))).
Proof.
  unfold parse_args, accepted, namespace_of, exit_status.
  by destruct (scan py_int argv default_namespace).
Qed.

Lemma scan_exits py_int argv ns code :
  scan py_int argv ns = Exits code → code = 0 ∨ code = 2.
Proof.
  revert ns. induction argv as [| o argv IH]; intros ns; [done |].
  destruct o; simpl; try apply IH; try (intros [= <-]; auto).
  - case_bool_decide; [apply IH | intros [= <-]; auto].
  - destruct (py_int v); [apply IH | intros [= <-]; auto].
Qed.

Lemma exit_status_cases py_int argv :
  accepted py_int argv = false →
  exit_status py_int argv = 0 ∨ exit_status py_int argv = 2.
Proof.
  unfold accepted, exit_status.
  destruct (scan py_int argv default_namespace) eqn:E; [done |].
  intros _. by eapply scan_exits.
Qed.

Lemma scan_network py_int argv ns ns' :
  scan py_int argv ns = Parsed ns' →
  (∀ v, args_network ns = Some v → v ∈ network_choices) →
  ∀ v, args_network ns' = Some v → v ∈ network_choices.
Proof.
  revert ns. induction argv as [| o argv IH]; intros ns; simpl.
  - by intros [= <-].
  - destruct o; try (intros H Hn; by eapply IH); try done.
    + case_bool_decide; [| done]. intros Hs _. eapply IH; [exact Hs |].
      simpl. by intros ? [= <-].
    + destruct (py_int v); [| done]. intros Hs Hn. by eapply IH.
Qed.

Lemma always_tune_all Q networks logdir tgt input_name :
  (∀ network e, network ∈ networks →
     tune_event_ok network tgt (log_prefix_of logdir tgt network) e → Q e) →
  always Q (tune_all networks logdir tgt input_name).
Proof.
  unfold tune_all. induction networks as [| n l IH]; intros HQ.
  - apply always_ret.
  - simpl. apply always_bind.
    + eapply always_impl; [| apply always_autotvm_tune].
      intros e. apply HQ. by left.
    + intros _. apply IH. intros network e Hin. apply HQ. by right.
Qed.

Lemma tuned_networks_app l1 l2 :
  tuned_networks (l1 ++ l2) = tuned_networks l1 ++ tuned_networks l2.
Proof. apply omap_app. Qed.

Lemma tuned_networks_none l :
  Forall (λ e, network_of_event e = None) l → tuned_networks l = [].
Proof.
  induction 1 as [| e l He _ IH]; [done |]. unfold tuned_networks in *. simpl.
  by rewrite He.
Qed.

Lemma tuned_networks_run network tgt input_name log_prefix f :
  tuned_networks (run_events network tgt input_name log_prefix f) = [network].
Proof.
  unfold run_events, kernel_phase. rewrite !tuned_networks_app.
  rewrite !(tuned_networks_none (unlink_events _ _)).
  2,3: unfold unlink_events; destruct (lookup_path _ _) as [[] |]; by repeat constructor.
  rewrite (tuned_networks_none (concat _)).
  2: { apply Forall_concat, Forall_map, Forall_forall. intros it _.
       by repeat constructor. }
  rewrite (tuned_networks_none (graph_phase _ _ _ _)).
  2: { unfold graph_phase. destruct (_ && _); by repeat constructor. }
  reflexivity.
Qed.

(** No directory stands where a log file of one of the networks goes. *)
Definition logs_clear (f : gmap (list string) node) (networks : list string)
    (logdir : string) (tgt : target) : Prop :=
  ∀ network, network ∈ networks →
    lookup_path f (kernel_log_of logdir tgt network) ≠ Some Dir ∧
    lookup_path f (graph_log_of logdir tgt network) ≠ Some Dir.

Lemma tune_all_ok networks logdir tgt input_name s :
  logs_clear (fs s) networks logdir tgt →
  ∃ s', tune_all networks logdir tgt input_name s = (s', Return tt) ∧
        tuned_networks (new_events s s') = networks ∧
        fs_shrinks (fs s) (fs s') ∧
        ∃ evs, trace s' = trace s ++ evs.
Proof.
  unfold tune_all. revert s. induction networks as [| n l IH]; intros s Hc.
  - exists s. repeat split; [| apply fs_shrinks_refl | exists []; by rewrite app_nil_r].
    unfold new_events. by rewrite drop_all.
  - destruct (Hc n) as [Hk Hg]; [by left |].
    simpl. erewrite bind_return; [| by apply autotvm_tune_ok].
    set (s1 := State _ _).
    assert (fs_shrinks (fs s) (fs s1)) as Hs1.
    { eapply fs_shrinks_trans; apply unlink_shrinks. }
    destruct (IH s1) as (s' & Hrun & Hnet & Hsh & evs & Htr).
    { intros network Hin. destruct (Hc network) as [? ?]; [by right |].
      split; by eapply lookup_path_shrinks. }
    exists s'. split; [done |]. split; [| split].
    + unfold new_events in *. rewrite Htr in *. simpl in *.
      rewrite <- app_assoc, drop_app_length.
      rewrite drop_app_length in Hnet.
      by rewrite tuned_networks_app, tuned_networks_run, Hnet.
    + by eapply fs_shrinks_trans.
    + rewrite Htr. simpl. rewrite <- app_assoc. by eexists.
Qed.

Definition known_networks : list string := ["resnet-50"; "mobilenet_v2"; "bert"].

(** The same, read off the keys: no directory node sits at the key of a log
    file. *)
Definition log_keys_clear (f : gmap (list string) node) (networks : list string)
    (logdir : string) (tgt : target) : Prop :=
  ∀ network, network ∈ networks →
    f !! resolve (kernel_log_of logdir tgt network) ≠ Some Dir ∧
    f !! resolve (graph_log_of logdir tgt network) ≠ Some Dir.

(** The path names a new entry of a directory that is there. *)
Definition names_new_entry (f : gmap (list string) node) (p : string) : Prop :=
  ∃ parent name slashes,
    entry_of p parent name slashes ∧
    (parent = "" ∨ lookup_path f parent = Some Dir) ∧
    lookup_path f (parent +:+ name) = None.

(** The log directory exists, or [os.mkdir] can create it. *)
Definition logdir_ready (f : gmap (list string) node) (logdir : string) : Prop :=
  is_Some (lookup_path f logdir) ∨ names_new_entry f logdir.

Lemma select_networks_known py_int argv network :
  network ∈ select_networks (namespace_of py_int argv) → network ∈ known_networks.
Proof.
  unfold namespace_of.
  destruct (scan py_int argv default_namespace) as [ns | code] eqn:E; [| done].
  pose proof (scan_network _ _ _ _ E) as Hn. unfold select_networks, known_networks.
  destruct (args_network ns) as [v |]; simpl; [| done].
  case_bool_decide; simpl; [done |].
  intros ->%list_elem_of_singleton. specialize (Hn ltac:(done) _ eq_refl).
  unfold network_choices in Hn.
  repeat (apply elem_of_cons in Hn as [-> | Hn]); try set_solver.
Qed.

Lemma os_path_join_suffix d name suf :
  name ≠ "" → startswith_sep name = false →
  os_path_join d name +:+ suf = os_path_join d (name +:+ suf).
Proof.
  intros Hne Hs. unfold os_path_join.
  rewrite startswith_sep_append, Hs by done.
  destruct (_ || _); by rewrite ?append_assoc.
Qed.

Lemma log_key_fresh logdir tgt network suf :
  logdir ≠ "" → network ∈ known_networks → suf ∈ ["_kernel.log"; "_graph.log"] →
  resolve (log_prefix_of logdir tgt network +:+ suf) ≠ resolve logdir.
Proof.
  intros Hd Hn Hs. unfold log_prefix_of.
  assert (∃ name, "autotvm_" +:+ target_name_of tgt +:+ "_" +:+ network = name ∧
                  name ≠ "" ∧ startswith_sep name = false ∧
                  no_sep (name +:+ suf) = true ∧
                  (3 ≤ String.length (name +:+ suf))%nat) as (name & -> & H1 & H2 & H3 & H4).
  { unfold target_name_of, known_networks in *.
    repeat (apply elem_of_cons in Hn as [-> | Hn]); try (by apply elem_of_nil in Hn);
    repeat (apply elem_of_cons in Hs as [-> | Hs]); try (by apply elem_of_nil in Hs);
    destruct (bool_decide _); eexists; (split; [reflexivity |]);
    (repeat split; [done | vm_compute; lia]). }
  rewrite os_path_join_suffix, resolve_join
    by (done || by apply proper_component_long).
  intros E. apply (f_equal length) in E. rewrite length_app in E. simpl in E. lia.
Qed.

(** With no directory node at the keys of the log files, no log path leads
    to a directory, in any file system that agrees on those keys. *)
Lemma log_keys_clear_logs f f' networks logdir tgt :
  log_keys_clear f networks logdir tgt →
  (∀ network suf, network ∈ networks → suf ∈ ["_kernel.log"; "_graph.log"] →
     f' !! resolve (log_prefix_of logdir tgt network +:+ suf) =
     f !! resolve (log_prefix_of logdir tgt network +:+ suf)) →
  logs_clear f' networks logdir tgt.
Proof.
  intros Hc Heq network Hin. destruct (Hc network Hin) as [Hk Hg].
  unfold kernel_log_of, graph_log_of in *.
  split; intros Hd; apply lookup_path_dir_key in Hd; try done; try (simpl; lia);
    rewrite Heq in Hd; try done; by repeat constructor.
Qed.

Lemma os_mkdir_run p s :
  os_mkdir p s =
    match mkdir_entry (fs s) p with
    | inl k => (State (<[k := Dir]> (fs s)) (trace s ++ [EvMkdir p]), Return tt)
    | inr e => (s, Raise e)
    end.
Proof. unfold os_mkdir, bind, get_fs. by destruct (mkdir_entry (fs s) p). Qed.

Section Main.
Variable tvm_target_Target : string → target.
Variable py_int : string → option Z.

Definition tune_selected (args : namespace) : M unit :=
  tune_all (select_networks args) (args_logdir args)
    (tvm_target_Target (args_target args)) (args_inputname args).

(** [main] up to the loop: the argument check and the creation of the log
    directory. *)
Lemma main_run argv s :
  main util_get_network tvm_target_Target extract_from_program py_int argv s =
    if accepted py_int argv then
      let args := namespace_of py_int argv in
      let logdir := args_logdir args in
      match lookup_path (fs s) logdir with
      | Some _ => tune_selected args s
      | None =>
          match mkdir_entry (fs s) logdir with
          | inl k =>
              tune_selected args
                (State (<[k := Dir]> (fs s)) (trace s ++ [EvMkdir logdir]))
          | inr e => (s, Raise e)
          end
      end
    else (s, Raise (SystemExit (exit_status py_int argv))).
Proof.
  unfold main. unfold bind at 1. rewrite parse_args_run.
  destruct (accepted py_int argv); [| done]. cbv zeta.
  generalize (namespace_of py_int argv) as args. intros args.
  unfold bind at 1. unfold os_path_exists at 1. unfold bind at 1. simpl.
  destruct (lookup_path (fs s) (args_logdir args)) as [nd |] eqn:E.
  - rewrite bool_decide_eq_true_2 by done. simpl.
    unfold bind at 1. simpl. reflexivity.
  - rewrite bool_decide_eq_false_2 by (by intros [? ?]). simpl.
    unfold bind at 1. rewrite os_mkdir_run.
    by destruct (mkdir_entry (fs s) (args_logdir args)).
Qed.

Lemma main_ok argv s :
  accepted py_int argv = true →
  let args := namespace_of py_int argv in
  let tgt := tvm_target_Target (args_target args) in
  logdir_ready (fs s) (args_logdir args) →
  log_keys_clear (fs s) (select_networks args) (args_logdir args) tgt →
  ∃ s', main util_get_network tvm_target_Target extract_from_program py_int argv s =
          (s', Return tt) ∧
        tuned_networks (new_events s s') = select_networks args.
Proof.
  intros Hacc args tgt Hready Hclear. rewrite main_run, Hacc. cbv zeta.
  fold args. unfold tune_selected. fold tgt.
  destruct (lookup_path (fs s) (args_logdir args)) as [nd |] eqn:E.
  - destruct (tune_all_ok (select_networks args) (args_logdir args) tgt
                (args_inputname args) s) as (s' & Hrun & Hnet & _).
    { by eapply log_keys_clear_logs. }
    by exists s'.
  - destruct Hready as [[x Hx] | (parent & name & slashes & He & Hpar & Hnew)];
      [congruence |].
    destruct (mkdir_entry_new _ _ _ _ _ He Hpar Hnew) as [_ ->].
    pose proof (proj1 He) as Hp.
    assert (args_logdir args ≠ "") as Hne.
    { destruct He as (-> & _ & _ & Hpc & _). intros E0.
      apply (f_equal String.length) in E0. rewrite !append_length in E0.
      destruct name; [done |]. simpl in E0. lia. }
    set (s1 := State _ _).
    destruct (tune_all_ok (select_networks args) (args_logdir args) tgt
                (args_inputname args) s1) as (s' & Hrun & Hnet & _ & evs & Htr).
    { eapply log_keys_clear_logs; [exact Hclear |].
      intros network suf Hin Hsuf. simpl. apply lookup_insert_ne.
      intros Heq. symmetry in Heq. revert Heq. apply log_key_fresh; try done.
      by eapply select_networks_known. }
    exists s'. split; [done |].
    unfold new_events in *. rewrite Htr in *. simpl in *.
    rewrite <- app_assoc, drop_app_length.
    rewrite drop_app_length in Hnet. done.
Qed.

End Main.

End Properties.

(** ** The claims on concrete runs *)

Definition demo_tasks : list task :=
  [ {| task_name := "dense_a"; config_space_len := 12%N |};
    {| task_name := "dense_b"; config_space_len := 5000%N |} ].

Definition demo_cpu : target := demo_Target "llvm -model=e5-2670 -mcpu=core-avx2".

(** The log paths as the specification words them: the directory, a slash,
    and the target string given on the command line in the file name. *)
Definition spec_kernel_log (logdir target_string network : string) : string :=
  logdir +:+ "/autotvm_" +:+ target_string +:+ "_" +:+ network +:+ "_kernel.log".

Definition spec_graph_log (logdir target_string network : string) : string :=
  logdir +:+ "/autotvm_" +:+ target_string +:+ "_" +:+ network +:+ "_graph.log".

(** Every log file a trace has the framework write, without repeats. *)
Definition artifacts (tr : list event) : list string :=
  remove_dups (concat (map written_paths tr)).

Definition demo_run (network : string) : state :=
  (main demo_get_network demo_Target demo_extract demo_int
     [OptNetwork network; OptTarget "llvm -model=e5-2670 -mcpu=core-avx2";
      OptLogdir "tuning_logs"]
     (State ∅ [])).1.

(** C1 as stated fails.  With the target string
    ["llvm -model=e5-2670 -mcpu=core-avx2"] the files written for resnet-50
    carry "cpu", not the target string, in their names, and neither of the
    paths of the specification is among them; for bert a single log file is
    written. *)
Lemma log_artifact_paths_counterexample :
  artifacts (trace (demo_run "resnet-50")) =
    ["tuning_logs/autotvm_cpu_resnet-50_kernel.log";
     "tuning_logs/autotvm_cpu_resnet-50_graph.log"] ∧
  spec_kernel_log "tuning_logs" "llvm -model=e5-2670 -mcpu=core-avx2" "resnet-50" =
    "tuning_logs/autotvm_llvm -model=e5-2670 -mcpu=core-avx2_resnet-50_kernel.log" ∧
  spec_graph_log "tuning_logs" "llvm -model=e5-2670 -mcpu=core-avx2" "resnet-50" =
    "tuning_logs/autotvm_llvm -model=e5-2670 -mcpu=core-avx2_resnet-50_graph.log" ∧
  bool_decide
    (spec_kernel_log "tuning_logs" "llvm -model=e5-2670 -mcpu=core-avx2" "resnet-50"
       ∈ artifacts (trace (demo_run "resnet-50"))) = false ∧
  bool_decide
    (spec_graph_log "tuning_logs" "llvm -model=e5-2670 -mcpu=core-avx2" "resnet-50"
       ∈ artifacts (trace (demo_run "resnet-50"))) = false ∧
  artifacts (trace (demo_run "bert")) = ["tuning_logs/autotvm_cpu_bert_kernel.log"].
Proof. repeat split; vm_compute; reflexivity. Qed.

(** C2 on a run: resnet-50 on a CPU target, with a stale kernel log. *)
Lemma graph_tuner_gate_witness :
  List.filter is_graph_event
    (new_events demo_state
       (autotvm_tune demo_get_network demo_extract "resnet-50" demo_cpu "data"
          "tuning_logs/autotvm_cpu_resnet-50" demo_state).1) =
  (let ex := GraphTuner DPTuner (GetItem (tuned_module demo_get_network "resnet-50") "main")
               [("data", NetworkInputShape "resnet-50")]
               "tuning_logs/autotvm_cpu_resnet-50_kernel.log"
               [OpGet "nn.conv2d"] demo_cpu in
   [EvNewGraphTuner ex; EvBenchmarkLayoutTransform ex 2000; EvRun ex;
    EvWriteOptSch ex "tuning_logs/autotvm_cpu_resnet-50_graph.log"]).
Proof.
  apply (graph_tuner_gate demo_get_network demo_extract "resnet-50" demo_cpu "data"
           "tuning_logs/autotvm_cpu_resnet-50" demo_state);
    intros H; vm_compute in H; discriminate.
Defined.

(** C3 on a run: the name "bogus" raises before anything is done. *)
Lemma unknown_tuner_raises_witness :
  tune_kernels demo_tasks cpu_measure_option "bogus" 1000 None "tuning.log"
    (State ∅ []) =
  (State ∅ [], Raise (ValueError "Invalid tuner: bogus")).
Proof.
  apply (unknown_tuner_raises demo_tasks cpu_measure_option "bogus" 1000 None
           "tuning.log" (State ∅ [])).
  - discriminate.
  - compute_done.
Defined.

(** C6 on a run: two tasks and the "ga" tuner. *)
Lemma kernels_tuned_once_each_witness :
  ∃ s',
    tune_kernels demo_tasks cpu_measure_option "ga" 1000 None "tuning.log"
      (State ∅ []) = (s', Return tt) ∧
    fs s' = ∅ ∧
    new_events (State ∅ []) s' =
      [EvNewTuner (GATuner {| task_name := "dense_b"; config_space_len := 5000 |} 100);
       EvTune (GATuner {| task_name := "dense_b"; config_space_len := 5000 |} 100)
         1000 None cpu_measure_option
         [progress_bar 1000 "[Task  1/ 2] "; log_to_file "tuning.log"];
       EvNewTuner (GATuner {| task_name := "dense_a"; config_space_len := 12 |} 100);
       EvTune (GATuner {| task_name := "dense_a"; config_space_len := 12 |} 100)
         12 None cpu_measure_option
         [progress_bar 12 "[Task  2/ 2] "; log_to_file "tuning.log"]].
Proof.
  destruct (kernels_tuned_once_each demo_tasks cpu_measure_option "ga" 1000 None
              "tuning.log" (State ∅ [])) as (s' & Hrun & Hfs & Hev & _).
  - compute_done.
  - exists s'. split; [exact Hrun |]. split; [exact Hfs |]. exact Hev.
Defined.

(** C4 on a run: the kernel log is there, the graph log is not. *)
Lemma stale_logs_removed_first_witness :
  ∃ s' rest,
    autotvm_tune demo_get_network demo_extract "resnet-50" demo_cpu "data"
      "tuning_logs/autotvm_cpu_resnet-50" demo_state = (s', Return tt) ∧
    trace s' =
      EvRemove "tuning_logs/autotvm_cpu_resnet-50_kernel.log"
      :: EvGetNetwork "resnet-50" :: rest ∧
    Forall (λ e, is_remove e = false) rest ∧
    lookup_path (fs s') "tuning_logs/autotvm_cpu_resnet-50_kernel.log" = None ∧
    lookup_path (fs s') "tuning_logs/autotvm_cpu_resnet-50_graph.log" = None.
Proof.
  apply (stale_logs_removed_first demo_get_network demo_extract "resnet-50" demo_cpu "data"
           "tuning_logs/autotvm_cpu_resnet-50" demo_state);
    intros H; vm_compute in H; discriminate.
Defined.

(** ** Further properties: [tune_kernels] *)

(** X1. [tune_kernels] raises exactly when the tuner name is unrecognized and
    there is at least one task: an empty task list never raises, whatever
    the name. *)
Theorem tune_kernels_raises_iff tasks mo tuner n_trial early_stopping log_filename s :
  (∃ e, (tune_kernels tasks mo tuner n_trial early_stopping log_filename s).2 = Raise e)
  ↔ (tuner ∉ recognized_tuners) ∧ tasks ≠ [].
Proof.
  split.
  - intros [e He]. destruct (decide (tuner ∈ recognized_tuners)) as [Hr | Hr].
    + rewrite tune_kernels_ok in He; done.
    + split; [done |]. intros ->. rewrite tune_kernels_nil in He. done.
  - intros [Hr Hne]. eexists. by rewrite tune_kernels_bad.
Qed.

Lemma enumerate_from_lookup {A} (l : list A) i k x :
  l !! k = Some x → enumerate_from i l !! k = Some ((i + k)%nat, x).
Proof.
  revert i k. induction l as [| y l IH]; intros i k H; [done |].
  destruct k as [| k]; simpl in *.
  - injection H as ->. by rewrite Nat.add_0_r.
  - rewrite (IH (S i) k H). do 2 f_equal. lia.
Qed.

Lemma concat_pairs_lookup {A B} (f : A → B) (g : A → B) (l : list A) k x :
  l !! k = Some x →
  concat (map (λ a, [f a; g a]) l) !! (2 * k)%nat = Some (f x) ∧
  concat (map (λ a, [f a; g a]) l) !! (2 * k + 1)%nat = Some (g x).
Proof.
  revert k. induction l as [| y l IH]; intros k H; [done |].
  destruct k as [| k]; simpl in *.
  - by injection H as ->.
  - destruct (IH k H) as [H1 H2].
    replace (k + S (k + 0))%nat with (S (2 * k)) by lia.
    replace (S (2 * k) + 1)%nat with (S (2 * k + 1)) by lia. done.
Qed.

(** X2. The tuning order, call by call: with a recognized tuner name, the
    k-th tuner (counting from 0) is built for the task at position
    [len(tasks) - 1 - k] of the list and tuned right after, with the
    progress prefix that counts k+1 of [len(tasks)]. *)
Theorem kth_tune_call tasks mo tuner n_trial early_stopping log_filename s k tsk :
  tuner ∈ recognized_tuners →
  (k < length tasks)%nat →
  tasks !! (length tasks - 1 - k)%nat = Some tsk →
  let evs :=
    new_events s
      (tune_kernels tasks mo tuner n_trial early_stopping log_filename s).1 in
  let trials := Z.min n_trial (Z.of_N (config_space_len tsk)) in
  evs !! (2 * k)%nat = Some (EvNewTuner (tuner_for tuner tsk)) ∧
  evs !! (2 * k + 1)%nat =
    Some (EvTune (tuner_for tuner tsk) trials early_stopping mo
            [progress_bar trials (task_prefix k (length tasks));
             log_to_file log_filename]).
Proof.
  intros Hr Hk Htsk evs trials. subst evs.
  rewrite tune_kernels_ok by done. simpl. rewrite new_events_app.
  assert (enumerate (rev tasks) !! k = Some (k, tsk)) as Hit.
  { unfold enumerate. apply (enumerate_from_lookup _ 0).
    rewrite rev_alt. change (rev_append tasks []) with (reverse tasks).
    rewrite reverse_lookup by done.
    rewrite <- Htsk. f_equal. lia. }
  unfold task_events.
  destruct (concat_pairs_lookup
    (λ it : nat * task, EvNewTuner (tuner_for tuner it.2))
    (λ it : nat * task,
       EvTune (tuner_for tuner it.2)
         (Z.min n_trial (Z.of_N (config_space_len it.2))) early_stopping mo
         [progress_bar (Z.min n_trial (Z.of_N (config_space_len it.2)))
            (task_prefix it.1 (length tasks));
          log_to_file log_filename])
    _ _ _ Hit) as [H1 H2].
  split; [exact H1 | exact H2].
Qed.

(** ** Further properties: log paths *)

Fixpoint chars (s : string) : list ascii :=
  match s with
  | EmptyString => []
  | String c r => c :: chars r
  end.

Lemma chars_append a b : chars (a +:+ b) = chars a ++ chars b.
Proof. induction a as [| x a IH]; [done |]. rewrite append_cons. simpl. by rewrite IH. Qed.

Lemma chars_inj a b : chars a = chars b → a = b.
Proof.
  revert b. induction a as [| x a IH]; intros [| y b]; simpl; try done.
  intros [= -> H]. by rewrite (IH b H).
Qed.

Lemma append_inv_tail (a b c : string) : a +:+ c = b +:+ c → a = b.
Proof.
  intros H. apply chars_inj. apply (f_equal chars) in H.
  rewrite !chars_append in H. by apply app_inv_tail in H.
Qed.

Lemma kernel_graph_suffix_mismatch (a b : string) :
  a +:+ "_kernel.log" ≠ b +:+ "_graph.log".
Proof.
  intros H. apply (f_equal (λ x, take 5 (reverse (chars x)))) in H. simpl in H.
  rewrite !chars_append, !reverse_app in H.
  rewrite !take_app_le in H by (vm_compute; lia).
  vm_compute in H. discriminate.
Qed.

(** What [os.path.join] puts before a name that does not start with a
    separator. *)
Definition dir_prefix (d : string) : string :=
  if bool_decide (d = "") || endswith_sep d then d else d +:+ "/".

Lemma os_path_join_relative d x :
  startswith_sep x = false → os_path_join d x = dir_prefix d +:+ x.
Proof.
  intros Hx. unfold os_path_join, dir_prefix. rewrite Hx.
  destruct (_ || _); [done |]. by rewrite append_assoc.
Qed.

Lemma log_prefix_of_split logdir tgt network :
  log_prefix_of logdir tgt network =
  dir_prefix logdir +:+ "autotvm_" +:+ target_name_of tgt +:+ "_" +:+ network.
Proof. unfold log_prefix_of. by rewrite os_path_join_relative. Qed.

Lemma target_name_cases tgt :
  (has_cpu tgt = true ∧ target_name_of tgt = "cpu") ∨
  (has_cpu tgt = false ∧ target_name_of tgt = "cuda").
Proof. unfold has_cpu, target_name_of. case_bool_decide; [by left | by right]. Qed.

Lemma log_file_names_split logdir tgt network suf :
  log_prefix_of logdir tgt network +:+ suf =
  dir_prefix logdir +:+ "autotvm_c" +:+
    (if has_cpu tgt then "pu_" else "uda_") +:+ network +:+ suf.
Proof.
  rewrite log_prefix_of_split, !append_assoc.
  by destruct (target_name_cases tgt) as [[-> ->] | [-> ->]].
Qed.

(** X8. No two log files of a run coincide: the kernel logs of two networks
    are the same path only for the same network, likewise the graph logs; a
    kernel log is never a graph log; and the logs of a CPU target are never
    those of a non-CPU target. *)
Theorem log_paths_distinct logdir tgt tgt' n1 n2 :
  (kernel_log_of logdir tgt n1 = kernel_log_of logdir tgt n2 → n1 = n2) ∧
  (graph_log_of logdir tgt n1 = graph_log_of logdir tgt n2 → n1 = n2) ∧
  kernel_log_of logdir tgt n1 ≠ graph_log_of logdir tgt' n2 ∧
  (has_cpu tgt ≠ has_cpu tgt' →
   kernel_log_of logdir tgt n1 ≠ kernel_log_of logdir tgt' n2 ∧
   graph_log_of logdir tgt n1 ≠ graph_log_of logdir tgt' n2).
Proof.
  unfold kernel_log_of, graph_log_of. rewrite !log_file_names_split.
  split; [| split; [| split; [| intros Hc; split]]].
  - intros H. do 3 apply append_inv_head in H. by apply append_inv_tail in H.
  - intros H. do 3 apply append_inv_head in H. by apply append_inv_tail in H.
  - intros H. do 2 apply append_inv_head in H.
    destruct (has_cpu tgt), (has_cpu tgt').
    + apply append_inv_head in H. by apply kernel_graph_suffix_mismatch in H.
    + rewrite !append_cons in H. discriminate.
    + rewrite !append_cons in H. discriminate.
    + apply append_inv_head in H. by apply kernel_graph_suffix_mismatch in H.
  - intros H. do 2 apply append_inv_head in H.
    destruct (has_cpu tgt), (has_cpu tgt'); try done;
      rewrite !append_cons in H; discriminate.
  - intros H. do 2 apply append_inv_head in H.
    destruct (has_cpu tgt), (has_cpu tgt'); try done;
      rewrite !append_cons in H; discriminate.
Qed.

Lemma endswith_sep_snoc d : endswith_sep (d +:+ "/") = true.
Proof.
  induction d as [| x d IH]; [done |]. rewrite append_cons.
  destruct d as [| y d]; [done |]. rewrite append_cons in *. exact IH.
Qed.

(** X9. A separator at the end of [--logdir] changes no log path: the logs
    for ["dir/"] are those for ["dir"]. *)
Theorem logdir_trailing_slash logdir tgt network :
  logdir ≠ "" → endswith_sep logdir = false →
  kernel_log_of (logdir +:+ "/") tgt network = kernel_log_of logdir tgt network ∧
  graph_log_of (logdir +:+ "/") tgt network = graph_log_of logdir tgt network.
Proof.
  intros Hne He.
  assert (dir_prefix (logdir +:+ "/") = dir_prefix logdir) as Hd.
  { unfold dir_prefix. rewrite endswith_sep_snoc, He, orb_true_r.
    by rewrite bool_decide_eq_false_2. }
  unfold kernel_log_of, graph_log_of. by rewrite !log_prefix_of_split, Hd.
Qed.

(** ** Further properties: one network *)

(** The file system changes only by losing files, and only at keys in [K]. *)
Definition fs_changes_within (K : list string → Prop)
    (f f' : gmap (list string) node) : Prop :=
  ∀ k, f' !! k = f !! k ∨ (f !! k = Some File ∧ f' !! k = None ∧ K k).

Lemma fs_changes_within_refl K f : fs_changes_within K f f.
Proof. intros k. by left. Qed.

Lemma fs_changes_within_trans K f1 f2 f3 :
  fs_changes_within K f1 f2 → fs_changes_within K f2 f3 → fs_changes_within K f1 f3.
Proof.
  intros H12 H23 k.
  destruct (H12 k) as [E | (E1 & E2 & HK)], (H23 k) as [E' | (E1' & E2' & HK')].
  - left. congruence.
  - right. repeat split; [congruence | done | done].
  - right. repeat split; [done | congruence | done].
  - congruence.
Qed.

Lemma fs_changes_within_mono (K K' : list string → Prop) f f' :
  (∀ k, K k → K' k) → fs_changes_within K f f' → fs_changes_within K' f f'.
Proof. intros HK H k. destruct (H k) as [E | (E1 & E2 & Hk)]; [by left | right; auto]. Qed.

Lemma fs_changes_within_shrinks K f f' : fs_changes_within K f f' → fs_shrinks f f'.
Proof. intros H k. destruct (H k) as [E | (E1 & E2 & _)]; [by left | by right]. Qed.

Lemma unlink_within f p : fs_changes_within (λ k, k = resolve p) f (unlink f p).
Proof.
  unfold unlink.
  destruct (lookup_path f p) as [[] |] eqn:E; try apply fs_changes_within_refl.
  apply lookup_path_File in E.
  intros k. destruct (decide (k = resolve p)) as [-> | Hne].
  - right. by rewrite lookup_delete_eq.
  - left. by rewrite lookup_delete_ne.
Qed.

(** The keys of the log files of [networks]. *)
Definition log_keys (networks : list string) (logdir : string) (tgt : target)
    (k : list string) : Prop :=
  ∃ network, network ∈ networks ∧
    (k = resolve (kernel_log_of logdir tgt network) ∨
     k = resolve (graph_log_of logdir tgt network)).

Definition is_extract (e : event) : bool :=
  match e with EvExtract _ _ _ _ => true | _ => false end.

Section Further.
Variable util_get_network : string → ir_module * params * shape * shape.
Variable extract_from_program : relay_func → target → params → list op → list task.

(** A directory where the graph log goes stops the run at the second
    [os.remove], after the kernel log was dealt with. *)
Lemma autotvm_tune_graph_log_directory network tgt input_name log_prefix s :
  lookup_path (fs s) (log_prefix +:+ "_kernel.log") ≠ Some Dir →
  lookup_path (fs s) (log_prefix +:+ "_graph.log") = Some Dir →
  autotvm_tune util_get_network extract_from_program network tgt input_name
    log_prefix s =
    (State (unlink (fs s) (log_prefix +:+ "_kernel.log"))
       (trace s ++ unlink_events (fs s) (log_prefix +:+ "_kernel.log")),
     Raise (IsADirectoryError (log_prefix +:+ "_graph.log"))).
Proof.
  intros Hk Hg. unfold autotvm_tune. rewrite stale_removed by done.
  rewrite stale_is_directory; [done |]. simpl.
  rewrite lookup_path_unlink_ne; [done |].
  intros E. by apply (kernel_graph_distinct log_prefix).
Qed.

(** Every run of [autotvm_tune], returning or not. *)
Lemma autotvm_tune_step network tgt input_name log_prefix s :
  let kernel_log := log_prefix +:+ "_kernel.log" in
  let graph_log := log_prefix +:+ "_graph.log" in
  let run := autotvm_tune util_get_network extract_from_program network tgt
               input_name log_prefix s in
  ∃ evs,
    trace run.1 = trace s ++ evs ∧
    fs_changes_within (λ k, k = resolve kernel_log ∨ k = resolve graph_log)
      (fs s) (fs run.1) ∧
    match run.2 with
    | Return _ =>
        evs = run_events util_get_network extract_from_program network tgt
                input_name log_prefix (fs s)
    | Raise e =>
        (e = IsADirectoryError kernel_log ∨ e = IsADirectoryError graph_log) ∧
        (evs = [] ∨ evs = unlink_events (fs s) kernel_log)
    end.
Proof.
  intros kernel_log graph_log run. subst run.
  assert (fs_changes_within (λ k, k = resolve kernel_log ∨ k = resolve graph_log)
            (fs s) (unlink (fs s) kernel_log)) as H1.
  { eapply fs_changes_within_mono; [| apply unlink_within]. by left. }
  assert (fs_changes_within (λ k, k = resolve kernel_log ∨ k = resolve graph_log)
            (fs s) (unlink (unlink (fs s) kernel_log) graph_log)) as H2.
  { eapply fs_changes_within_trans; [exact H1 |].
    eapply fs_changes_within_mono; [| apply unlink_within]. by right. }
  destruct (decide (lookup_path (fs s) kernel_log = Some Dir)) as [Hk | Hk].
  - rewrite autotvm_tune_kernel_log_directory by done. exists []. simpl.
    rewrite app_nil_r. split; [done |]. split; [apply fs_changes_within_refl |].
    split; by left.
  - destruct (decide (lookup_path (fs s) graph_log = Some Dir)) as [Hg | Hg].
    + rewrite autotvm_tune_graph_log_directory by done.
      exists (unlink_events (fs s) kernel_log). simpl.
      split; [done |]. split; [done |]. split; by right.
    + rewrite autotvm_tune_ok by done. eexists. simpl. split; [done |]. by split.
Qed.

(** X3. The only exception [autotvm_tune] itself raises is
    [IsADirectoryError], for a directory standing at the kernel-log or the
    graph-log path.  At the kernel log it stops with nothing done; at the
    graph log it stops once the stale kernel log is removed.  Either way
    [get_network] has not been called and nothing is extracted or tuned. *)
Theorem autotvm_tune_failure_modes network tgt input_name log_prefix s :
  let kernel_log := log_prefix +:+ "_kernel.log" in
  let graph_log := log_prefix +:+ "_graph.log" in
  let run := autotvm_tune util_get_network extract_from_program network tgt
               input_name log_prefix s in
  match run.2 with
  | Return _ =>
      lookup_path (fs s) kernel_log ≠ Some Dir ∧
      lookup_path (fs s) graph_log ≠ Some Dir
  | Raise e =>
      Forall (λ ev, is_remove ev = true) (new_events s run.1) ∧
      ((e = IsADirectoryError kernel_log ∧
        lookup_path (fs s) kernel_log = Some Dir ∧ run.1 = s) ∨
       (e = IsADirectoryError graph_log ∧
        lookup_path (fs s) graph_log = Some Dir ∧
        run.1 = State (unlink (fs s) kernel_log)
                  (trace s ++ unlink_events (fs s) kernel_log)))
  end.
Proof.
  intros kernel_log graph_log run. subst run.
  destruct (decide (lookup_path (fs s) kernel_log = Some Dir)) as [Hk | Hk].
  - rewrite autotvm_tune_kernel_log_directory by done. simpl. split; [| by left].
    unfold new_events. by rewrite drop_all.
  - destruct (decide (lookup_path (fs s) graph_log = Some Dir)) as [Hg | Hg].
    + rewrite autotvm_tune_graph_log_directory by done. simpl. split; [| by right].
      rewrite new_events_app.
      eapply Forall_impl; [apply unlink_events_removes |]. by intros ev [? _].
    + rewrite autotvm_tune_ok by done. done.
Qed.

Lemma always_autotvm_tune_run (Q : event → Prop) network tgt input_name log_prefix :
  (∀ f, Forall Q (run_events util_get_network extract_from_program network tgt
                    input_name log_prefix f)) →
  always Q (autotvm_tune util_get_network extract_from_program network tgt
              input_name log_prefix).
Proof.
  intros HQ s.
  destruct (autotvm_tune_step network tgt input_name log_prefix s)
    as (evs & Htr & Hfs & Hout).
  split; [| by eapply fs_changes_within_shrinks].
  exists evs. split; [done |].
  destruct (_.2) as [[] | e].
  - subst evs. apply HQ.
  - destruct Hout as [_ [-> | ->]]; [done |].
    specialize (HQ (fs s)). unfold run_events in HQ.
    by apply Forall_app in HQ as [HQ _].
Qed.

End Further.

Definition tuner_task_of_event (e : event) : option task :=
  match e with
  | EvNewTuner t => Some (tuned_task t)
  | _ => None
  end.

Lemma tuned_task_tuner_for tuner tsk : tuned_task (tuner_for tuner tsk) = tsk.
Proof. unfold tuner_for. by repeat case_bool_decide. Qed.

Lemma task_events_tasks n mo tuner n_trial early_stopping log_filename l i :
  omap tuner_task_of_event
    (concat (map (task_events n mo tuner n_trial early_stopping log_filename)
               (enumerate_from i l))) = l.
Proof.
  revert i. induction l as [| tsk l IH]; intros i; [done |].
  cbn [enumerate_from map concat]. rewrite omap_app, IH.
  unfold task_events. simpl. by rewrite tuned_task_tuner_for.
Qed.

Lemma omap_none {A B} (f : A → option B) (l : list A) :
  Forall (λ x, f x = None) l → omap f l = [].
Proof. induction 1 as [| x l Hx _ IH]; [done |]. simpl. by rewrite Hx. Qed.

Lemma unlink_events_quiet {B} (f : event → option B) fsys p :
  (∀ q, f (EvRemove q) = None) → omap f (unlink_events fsys p) = [].
Proof.
  intros Hf. unfold unlink_events.
  destruct (lookup_path fsys p) as [[] |]; simpl; by rewrite ?Hf.
Qed.

Lemma task_events_requests n mo tuner n_trial early_stopping log_filename l i :
  omap trial_request
    (concat (map (task_events n mo tuner n_trial early_stopping log_filename)
               (enumerate_from i l))) =
  map (λ tsk, (tsk, Z.min n_trial (Z.of_N (config_space_len tsk)))) l.
Proof.
  revert i. induction l as [| tsk l IH]; intros i; [done |].
  cbn [enumerate_from map concat]. rewrite omap_app, IH.
  unfold task_events. simpl. by rewrite tuned_task_tuner_for.
Qed.

Lemma written_files_app l1 l2 :
  written_files (l1 ++ l2) = written_files l1 ++ written_files l2.
Proof. unfold written_files. by rewrite map_app, concat_app. Qed.

Lemma written_files_none l :
  Forall (λ e, written_paths e = []) l → written_files l = [].
Proof.
  unfold written_files. induction 1 as [| e l He _ IH]; [done |]. simpl.
  by rewrite He, IH.
Qed.

Lemma task_events_written n mo tuner n_trial early_stopping log_filename l i :
  written_files
    (concat (map (task_events n mo tuner n_trial early_stopping log_filename)
               (enumerate_from i l))) =
  replicate (length l) log_filename.
Proof.
  revert i. induction l as [| tsk l IH]; intros i; [done |].
  cbn [enumerate_from map concat]. rewrite written_files_app, IH. done.
Qed.

Lemma omap_Forall {A B} (f : A → option B) (P : B → Prop) (l : list A) :
  Forall (λ x, ∀ y, f x = Some y → P y) l → Forall P (omap f l).
Proof.
  induction 1 as [| x l Hx _ IH]; simpl; [done |].
  destruct (f x) as [y |] eqn:E; [| done]. constructor; [by apply Hx | done].
Qed.

Section Extraction.
Variable util_get_network : string → ir_module * params * shape * shape.
Variable extract_from_program : relay_func → target → params → list op → list task.

(** X10. In a run of [autotvm_tune] that returns, tasks are extracted once:
    for "bert" from [mod["main"]] as loaded, for [nn.batch_matmul] and
    [nn.dense]; for any other network from [mod["main"]] after
    [RemoveUnusedFunctions] and [ConvertLayout] to NCHW at optimization level
    3, for [nn.conv2d].  The tuners are then built for exactly the extracted
    tasks, last task first, and the graph tuner, when it runs, works on the
    same function with [nn.conv2d] as its target operator.  A run that
    raises has extracted nothing and built no tuner. *)
Theorem extraction_feeds_the_tuners network tgt input_name log_prefix s :
  let run := autotvm_tune util_get_network extract_from_program network tgt
               input_name log_prefix s in
  let loaded := (util_get_network network).1.1.1 in
  let f :=
    GetItem
      (if bool_decide (network = "bert") then loaded
       else SequentialApply
              [RemoveUnusedFunctions;
               ConvertLayout [("nn.conv2d", ["NCHW"; "default"])]] 3 loaded)
      "main" in
  let ops := if bool_decide (network = "bert")
             then [OpGet "nn.batch_matmul"; OpGet "nn.dense"]
             else [OpGet "nn.conv2d"] in
  let tasks := extract_from_program f tgt (util_get_network network).1.1.2 ops in
  List.filter is_extract (new_events s run.1) =
    match run.2 with
    | Return _ => [EvExtract f tgt (util_get_network network).1.1.2 ops]
    | Raise _ => []
    end ∧
  omap tuner_task_of_event (new_events s run.1) =
    match run.2 with
    | Return _ => rev tasks
    | Raise _ => []
    end ∧
  Forall (λ e, match e with
               | EvNewGraphTuner ex | EvBenchmarkLayoutTransform ex _
               | EvRun ex | EvWriteOptSch ex _ =>
                   gt_graph ex = f ∧ gt_target_op ex = [OpGet "nn.conv2d"] ∧
                   gt_target ex = tgt
               | _ => True
               end) (new_events s run.1).
Proof.
  intros run loaded f ops tasks.
  assert (f = GetItem (tuned_module util_get_network network) "main") as Hf.
  { subst f loaded. unfold tuned_module, is_bert, network_module.
    by case_bool_decide. }
  assert (ops = tuned_ops network) as Hops by done.
  assert (tasks = extracted util_get_network extract_from_program network tgt)
    as Htasks.
  { subst tasks. unfold extracted, network_params. by rewrite Hf, Hops. }
  clearbody f ops tasks. subst f ops tasks. subst run.
  destruct (autotvm_tune_step util_get_network extract_from_program network tgt
              input_name log_prefix s) as (evs & Htr & _ & Hout).
  unfold new_events. rewrite Htr, drop_app_length.
  destruct (_.2) as [[] | e].
  - subst evs. unfold run_events, kernel_phase.
    split; [| split].
    + rewrite !List.filter_app.
      rewrite !(filter_none _ (unlink_events _ _)),
        (filter_none _ (concat _)), (filter_none _ (graph_phase _ _ _ _ _)); first done.
      * unfold graph_phase. destruct (_ && _); by repeat constructor.
      * apply Forall_concat, Forall_map, Forall_forall. intros it _.
        by repeat constructor.
      * eapply Forall_impl; [apply unlink_events_removes |].
        intros [] (? & _); done.
      * eapply Forall_impl; [apply unlink_events_removes |].
        intros [] (? & _); done.
    + rewrite !omap_app, !unlink_events_quiet by done.
      unfold enumerate. rewrite task_events_tasks. simpl.
      rewrite (omap_none _ (graph_phase _ _ _ _ _)); first by rewrite app_nil_r.
      unfold graph_phase. destruct (_ && _); by repeat constructor.
    + repeat apply Forall_app_2.
      * eapply Forall_impl; [apply unlink_events_removes |]. intros [] (? & _); done.
      * eapply Forall_impl; [apply unlink_events_removes |]. intros [] (? & _); done.
      * by repeat constructor.
      * by repeat constructor.
      * apply Forall_concat, Forall_map, Forall_forall. intros it _.
        by repeat constructor.
      * unfold graph_phase, graph_tuner_for. destruct (_ && _); by repeat constructor.
  - destruct Hout as [_ [-> | ->]]; [done |].
    split; [| split].
    + apply filter_none. eapply Forall_impl; [apply unlink_events_removes |].
      intros [] (? & _); done.
    + by apply unlink_events_quiet.
    + eapply Forall_impl; [apply unlink_events_removes |]. intros [] (? & _); done.
Qed.

(** Every run of [tune_all], returning or not. *)
Lemma tune_all_cases networks logdir tgt input_name s :
  let run := tune_all util_get_network extract_from_program networks logdir tgt
               input_name s in
  ∃ evs,
    trace run.1 = trace s ++ evs ∧
    fs_changes_within (log_keys networks logdir tgt) (fs s) (fs run.1) ∧
    tuned_networks evs `prefix_of` networks ∧
    match run.2 with
    | Return _ => tuned_networks evs = networks
    | Raise e =>
        ∃ network, network ∈ networks ∧
          (e = IsADirectoryError (kernel_log_of logdir tgt network) ∨
           e = IsADirectoryError (graph_log_of logdir tgt network))
    end.
Proof.
  cbv zeta. unfold tune_all. revert s.
  induction networks as [| n l IH]; intros s.
  - exists []. simpl. rewrite app_nil_r.
    split; [done |]. split; [apply fs_changes_within_refl |]. done.
  - cbn [for_each].
    destruct (autotvm_tune_step util_get_network extract_from_program n tgt
                input_name (log_prefix_of logdir tgt n) s)
      as (evs1 & Htr1 & Hfs1 & Hout1).
    assert (fs_changes_within (log_keys (n :: l) logdir tgt) (fs s)
              (fs (autotvm_tune util_get_network extract_from_program n tgt
                     input_name (log_prefix_of logdir tgt n) s).1)) as Hfs1'.
    { eapply fs_changes_within_mono; [| exact Hfs1].
      intros k Hk. exists n. split; [by left | exact Hk]. }
    destruct (autotvm_tune _ _ n _ _ _ s) as [s1 [[] | e]] eqn:Erun; simpl in *.
    2: rewrite (bind_raise _ _ _ _ _ Erun); simpl.
    1: rewrite (bind_return _ _ _ _ _ Erun).
    + destruct (IH s1) as (evs2 & Htr2 & Hfs2 & Hpre & Hout2).
      exists (evs1 ++ evs2). rewrite Htr2, Htr1, app_assoc. split; [done |].
      split.
      { eapply fs_changes_within_trans; [exact Hfs1' |].
        eapply fs_changes_within_mono; [| exact Hfs2].
        intros k (m & Hm & Hk). exists m. split; [by right | done]. }
      rewrite tuned_networks_app. subst evs1. rewrite tuned_networks_run. simpl.
      split; [by apply prefix_cons |].
      destruct (_.2) as [[] | e].
      * by rewrite Hout2.
      * destruct Hout2 as (m & Hm & He). exists m. split; [by right | done].
    + exists evs1. split; [done |]. split; [done |].
      destruct Hout1 as [He Hev].
      assert (tuned_networks evs1 = []) as ->.
      { destruct Hev as [-> | ->]; [done |]. by apply unlink_events_quiet. }
      split; [apply prefix_nil |]. exists n. split; [by left | done].
Qed.

(** The log files one network's tuning has the framework write, in order:
    the kernel log, by the tuner run of every extracted task, then the graph
    log when the network is not "bert" and "cpu" is among the target's
    keys. *)
Definition network_artifacts (logdir : string) (tgt : target) (network : string)
  : list string :=
  replicate (length (extracted util_get_network extract_from_program network tgt))
    (kernel_log_of logdir tgt network) ++
  (if bool_decide (network ≠ "bert" ∧ "cpu" ∈ keys tgt)
   then [graph_log_of logdir tgt network] else []).

Lemma run_events_written logdir tgt network input_name f :
  written_files
    (run_events util_get_network extract_from_program network tgt input_name
       (log_prefix_of logdir tgt network) f) =
  network_artifacts logdir tgt network.
Proof.
  unfold run_events, kernel_phase, network_artifacts. rewrite !written_files_app.
  rewrite !(written_files_none (unlink_events _ _)).
  2,3: eapply Forall_impl; [apply unlink_events_removes |]; by intros e (_ & _ & ?).
  unfold enumerate. rewrite task_events_written, length_rev. simpl.
  f_equal. unfold graph_phase, is_bert, has_cpu, graph_log_of.
  repeat case_bool_decide; simpl; try done; tauto.
Qed.

(** A run of [tune_all] has written the log files of the networks it has
    finished, one network after the other; when it returns, it has finished
    them all. *)
Lemma tune_all_written networks logdir tgt input_name s :
  let run := tune_all util_get_network extract_from_program networks logdir tgt
               input_name s in
  ∃ finished,
    finished `prefix_of` networks ∧
    written_files (new_events s run.1) =
      concat (map (network_artifacts logdir tgt) finished) ∧
    (run.2 = Return tt → finished = networks).
Proof.
  cbv zeta. unfold tune_all. revert s. induction networks as [| n l IH]; intros s.
  - exists []. simpl. unfold new_events. by rewrite drop_all.
  - cbn [for_each].
    destruct (autotvm_tune_step util_get_network extract_from_program n tgt
                input_name (log_prefix_of logdir tgt n) s)
      as (evs1 & Htr1 & _ & Hout1).
    destruct (autotvm_tune _ _ n _ _ _ s) as [s1 [[] | e]] eqn:Erun; simpl in *.
    + rewrite (bind_return _ _ _ _ _ Erun).
      destruct (tune_all_cases l logdir tgt input_name s1) as (evs2 & Htr2 & _).
      destruct (IH s1) as (finished & Hpre & Hw & Hret).
      unfold tune_all in Htr2. exists (n :: finished).
      split; [by apply prefix_cons |]. split.
      * unfold new_events in *.
        rewrite Htr2, Htr1, <- app_assoc, drop_app_length, written_files_app.
        rewrite Htr2, drop_app_length in Hw. rewrite Hw. subst evs1. simpl.
        by rewrite run_events_written.
      * intros He. by rewrite (Hret He).
    + rewrite (bind_raise _ _ _ _ _ Erun). exists []. simpl.
      split; [apply prefix_nil |]. split; [| done].
      unfold new_events. rewrite Htr1, drop_app_length.
      destruct Hout1 as [_ [-> | ->]]; [done |].
      apply written_files_none.
      eapply Forall_impl; [apply unlink_events_removes |]. by intros e0 (_ & _ & ?).
Qed.

(** C9. For every task, the number of trials asked of its tuner is
    min(n_trial, size of the task's config space): with a recognized tuner
    name the [tune] calls of [tune_kernels] are, task by task in reversed
    order, for exactly that many trials (with another name there is no
    [tune] call at all).  The number is at most the size of the config
    space, and at most 1000 under the default [n_trial], which is the one
    [autotvm_tune] runs with: its [tune] calls ask, for each extracted task,
    for min(1000, size) trials. *)
Theorem trials_within_config_space tasks mo tuner n_trial early_stopping
    log_filename network tgt input_name log_prefix s :
  let trials (n : Z) (tsk : task) := Z.min n (Z.of_N (config_space_len tsk)) in
  let run := autotvm_tune util_get_network extract_from_program network tgt
               input_name log_prefix s in
  trial_requests
    (new_events s
       (tune_kernels tasks mo tuner n_trial early_stopping log_filename s).1) =
    (if bool_decide (tuner ∈ recognized_tuners)
     then map (λ tsk, (tsk, trials n_trial tsk)) (rev tasks) else []) ∧
  (∀ tsk, trials n_trial tsk ≤ Z.of_N (config_space_len tsk) ∧
          trials n_trial tsk ≤ n_trial ∧
          trials n_trial_default tsk ≤ 1000) ∧
  (run.2 = Return tt →
   trial_requests (new_events s run.1) =
     map (λ tsk, (tsk, trials n_trial_default tsk))
       (rev (extracted util_get_network extract_from_program network tgt))) ∧
  Forall (λ r, r.2 = trials n_trial_default r.1 ∧ r.2 ≤ 1000)
    (trial_requests (new_events s run.1)).
Proof.
  intros trials run. split; [| split; [| split]].
  - case_bool_decide as Hr.
    + rewrite tune_kernels_ok by done. simpl. rewrite new_events_app.
      apply task_events_requests.
    + destruct (decide (tasks = [])) as [-> | Hne].
      * rewrite tune_kernels_nil. simpl. unfold new_events. by rewrite drop_all.
      * rewrite tune_kernels_bad by done. simpl. unfold new_events.
        by rewrite drop_all.
  - intros tsk. subst trials. unfold n_trial_default. simpl. lia.
  - subst run.
    destruct (autotvm_tune_step util_get_network extract_from_program network tgt
                input_name log_prefix s) as (evs & Htr & _ & Hout).
    intros He. rewrite He in Hout. unfold new_events. rewrite Htr, drop_app_length.
    subst evs. unfold run_events, kernel_phase, trial_requests.
    rewrite !omap_app, !unlink_events_quiet by done.
    unfold enumerate. rewrite task_events_requests. simpl.
    rewrite (omap_none _ (graph_phase _ _ _ _ _)); first by rewrite app_nil_r.
    unfold graph_phase. destruct (_ && _); by repeat constructor.
  - apply omap_Forall.
    eapply Forall_impl; [apply grows_new_events, always_autotvm_tune |].
    intros [] He [tsk k] Hreq; simplify_eq/=.
    destruct He as (_ & -> & _).
    unfold n_trial_default. split; [done | lia].
Qed.

End Extraction.

(** ** Further properties: the whole script *)

(** The choices the script makes for every tuner: an [XGBTuner] with
    [loss_type="rank"], no early stopping, the measure options of the
    device class; for the graph tuner [DPTuner] and 2000 executions. *)
Definition tuner_choice_ok (tgt : target) (e : event) : Prop :=
  match e with
  | EvNewTuner t => t = XGBTuner (tuned_task t) "rank"
  | EvTune t _ es mo _ =>
      t = XGBTuner (tuned_task t) "rank" ∧ es = None ∧
      mo = (if bool_decide ("cpu" ∈ keys tgt)
            then cpu_measure_option else gpu_measure_option)
  | EvNewGraphTuner ex | EvRun ex | EvWriteOptSch ex _ => gt_kind ex = DPTuner
  | EvBenchmarkLayoutTransform ex n => gt_kind ex = DPTuner ∧ n = 2000
  | _ => True
  end.

Lemma for_each_ext {A} (l : list A) (f g : A → M unit) :
  (∀ x s, x ∈ l → f x s = g x s) → ∀ s, for_each l f s = for_each l g s.
Proof.
  induction l as [| x l IH]; intros H s; [done |]. simpl. unfold bind.
  rewrite (H x s) by (by left). destruct (g x s) as [s' [[] | e]]; [| done].
  apply IH. intros y s0 Hy. apply H. by right.
Qed.

Section Loop.
Variable util_get_network : string → ir_module * params * shape * shape.
Variable extract_from_program : relay_func → target → params → list op → list task.

Lemma autotvm_tune_input_name network tgt name1 name2 log_prefix s :
  "cpu" ∉ keys tgt ∨ network = "bert" →
  autotvm_tune util_get_network extract_from_program network tgt name1 log_prefix s =
  autotvm_tune util_get_network extract_from_program network tgt name2 log_prefix s.
Proof.
  intros Hc.
  destruct (decide (lookup_path (fs s) (log_prefix +:+ "_kernel.log") = Some Dir))
    as [Hk | Hk].
  { by rewrite !autotvm_tune_kernel_log_directory. }
  destruct (decide (lookup_path (fs s) (log_prefix +:+ "_graph.log") = Some Dir))
    as [Hg | Hg].
  { by rewrite !autotvm_tune_graph_log_directory. }
  rewrite !autotvm_tune_ok by done. unfold run_events.
  assert (∀ name, graph_phase util_get_network network tgt name log_prefix = [])
    as Hnil.
  { intros name. unfold graph_phase, is_bert, has_cpu.
    destruct Hc as [Hc | ->].
    - by rewrite (bool_decide_eq_false_2 _ Hc), andb_false_r.
    - done. }
  by rewrite !Hnil.
Qed.

Lemma run_events_choices network tgt input_name log_prefix f :
  Forall (tuner_choice_ok tgt)
    (run_events util_get_network extract_from_program network tgt input_name
       log_prefix f).
Proof.
  unfold run_events, kernel_phase. repeat apply Forall_app_2.
  - eapply Forall_impl; [apply unlink_events_removes |]. intros [] (? & _); done.
  - eapply Forall_impl; [apply unlink_events_removes |]. intros [] (? & _); done.
  - by repeat constructor.
  - by repeat constructor.
  - apply Forall_concat, Forall_map, Forall_forall. intros it _.
    unfold task_events, measure_for, has_cpu. by repeat constructor.
  - unfold graph_phase, graph_tuner_for. destruct (_ && _); by repeat constructor.
Qed.

End Loop.

(** ** The command line *)

(** The value of the last [--network], if any. *)
Definition given_network (argv : list cli_option) : option string :=
  fold_left (λ acc o, match o with OptNetwork v => Some v | _ => acc end) argv None.

Definition is_thread (o : cli_option) : bool :=
  match o with OptThread _ => true | _ => false end.

Definition is_inputname (o : cli_option) : bool :=
  match o with OptInputname _ => true | _ => false end.

(** The values given with [--thread], and a command line with its
    [--thread] options, or its [--inputname] options, left out. *)
Definition thread_values (argv : list cli_option) : list string :=
  omap (λ o, match o with OptThread v => Some v | _ => None end) argv.

Definition without_thread (argv : list cli_option) : list cli_option :=
  List.filter (λ o, negb (is_thread o)) argv.

Definition without_inputname (argv : list cli_option) : list cli_option :=
  List.filter (λ o, negb (is_inputname o)) argv.

Definition forget_thread (r : parse_result) : parse_result :=
  match r with
  | Parsed ns =>
      Parsed (Namespace (args_network ns) (args_target ns) (args_logdir ns) 1
                (args_inputname ns))
  | Exits code => Exits code
  end.

Definition forget_inputname (r : parse_result) : parse_result :=
  match r with
  | Parsed ns =>
      Parsed (Namespace (args_network ns) (args_target ns) (args_logdir ns)
                (args_thread ns) "")
  | Exits code => Exits code
  end.

Lemma scan_app py_int l1 l2 ns :
  scan py_int (l1 ++ l2) ns =
  match scan py_int l1 ns with
  | Parsed ns1 => scan py_int l2 ns1
  | Exits code => Exits code
  end.
Proof.
  revert ns. induction l1 as [| o l1 IH]; intros ns; [done |].
  destruct o; simpl; try apply IH; try done.
  - case_bool_decide; [apply IH | done].
  - destruct (py_int v); [apply IH | done].
Qed.

Lemma scan_given_network py_int argv ns ns' :
  scan py_int argv ns = Parsed ns' →
  args_network ns' =
  fold_left (λ acc o, match o with OptNetwork v => Some v | _ => acc end) argv
    (args_network ns).
Proof.
  revert ns. induction argv as [| o argv IH]; intros ns; simpl.
  - by intros [= <-].
  - destruct o; try (intros Hs; by rewrite (IH _ Hs)); try done.
    + case_bool_decide; [| done]. intros Hs. by rewrite (IH _ Hs).
    + destruct (py_int v); [| done]. intros Hs. by rewrite (IH _ Hs).
Qed.

Lemma scan_without_thread py_int argv ns ns' :
  forget_thread (Parsed ns) = forget_thread (Parsed ns') →
  Forall (λ v, is_Some (py_int v)) (thread_values argv) →
  forget_thread (scan py_int argv ns) =
  forget_thread (scan py_int (without_thread argv) ns').
Proof.
  revert ns ns'. induction argv as [| o argv IH]; intros ns ns' Hns Hv; [done |].
  simpl in Hns. injection Hns as Hn Ht Hl Hi.
  destruct o; simpl in *; rewrite ?Hn, ?Ht, ?Hl, ?Hi; try done;
    try (apply IH; [by simpl; rewrite ?Hn, ?Ht, ?Hl, ?Hi | done]).
  - case_bool_decide; [| done].
    apply IH; [by simpl; rewrite ?Hn, ?Ht, ?Hl, ?Hi | done].
  - apply Forall_cons in Hv as [[n Hv] Hrest]. rewrite Hv.
    apply IH; [by simpl; rewrite ?Hn, ?Ht, ?Hl, ?Hi | done].
Qed.

Lemma scan_without_inputname py_int argv ns ns' :
  forget_inputname (Parsed ns) = forget_inputname (Parsed ns') →
  forget_inputname (scan py_int argv ns) =
  forget_inputname (scan py_int (without_inputname argv) ns').
Proof.
  revert ns ns'. induction argv as [| o argv IH]; intros ns ns' Hns; [done |].
  simpl in Hns. injection Hns as Hn Ht Hl Hi.
  destruct o; simpl in *; rewrite ?Hn, ?Ht, ?Hl, ?Hi; try done;
    try (apply IH; by simpl; rewrite ?Hn, ?Ht, ?Hl, ?Hi).
  - case_bool_decide; [| done]. apply IH; by simpl; rewrite ?Hn, ?Ht, ?Hl, ?Hi.
  - destruct (py_int v); [| done]. apply IH; by simpl; rewrite ?Hn, ?Ht, ?Hl, ?Hi.
Qed.

Section Whole.
Variable util_get_network : string → ir_module * params * shape * shape.
Variable extract_from_program : relay_func → target → params → list op → list task.
Variable tvm_target_Target : string → target.
Variable py_int : string → option Z.

(** [main] once the arguments are parsed. *)
Definition after_parse (args : namespace) (s : state) : state * outcome unit :=
  match lookup_path (fs s) (args_logdir args) with
  | Some _ =>
      tune_selected util_get_network extract_from_program tvm_target_Target args s
  | None =>
      match mkdir_entry (fs s) (args_logdir args) with
      | inl k =>
          tune_selected util_get_network extract_from_program tvm_target_Target args
            (State (<[k := Dir]> (fs s)) (trace s ++ [EvMkdir (args_logdir args)]))
      | inr e => (s, Raise e)
      end
  end.

Lemma main_scan argv s :
  main util_get_network tvm_target_Target extract_from_program py_int argv s =
    match scan py_int argv default_namespace with
    | Parsed args => after_parse args s
    | Exits code => (s, Raise (SystemExit code))
    end.
Proof.
  rewrite main_run. unfold accepted, namespace_of, exit_status.
  by destruct (scan py_int argv default_namespace).
Qed.

(** How far [main] gets: rejected arguments, a log directory that cannot be
    made, or the loop over the networks, started with or without the
    [os.mkdir]. *)
Lemma main_cases argv s :
  let args := namespace_of py_int argv in
  let logdir := args_logdir args in
  let tgt := tvm_target_Target (args_target args) in
  let run := main util_get_network tvm_target_Target extract_from_program py_int
               argv s in
  (accepted py_int argv = false ∧
   run = (s, Raise (SystemExit (exit_status py_int argv)))) ∨
  (accepted py_int argv = true ∧ lookup_path (fs s) logdir = None ∧
   ∃ e, run = (s, Raise e) ∧
        (e = FileNotFoundError logdir ∨ e = NotADirectoryError logdir ∨
         e = FileExistsError logdir)) ∨
  (accepted py_int argv = true ∧
   ∃ s0,
     run = tune_all util_get_network extract_from_program (select_networks args)
             logdir tgt (args_inputname args) s0 ∧
     ((s0 = s ∧ is_Some (lookup_path (fs s) logdir)) ∨
      (s0 = State (<[resolve logdir := Dir]> (fs s)) (trace s ++ [EvMkdir logdir]) ∧
       lookup_path (fs s) logdir = None ∧ logdir ≠ "" ∧
       fs s !! resolve logdir = None ∧
       lookup_path (<[resolve logdir := Dir]> (fs s)) logdir = Some Dir))).
Proof.
  intros args logdir tgt run. subst run. rewrite main_run.
  destruct (accepted py_int argv); [| by left]. right. cbv zeta. fold args logdir.
  destruct (lookup_path (fs s) logdir) as [nd |] eqn:E.
  - right. split; [done |]. exists s. split; [done |]. left. by eauto.
  - destruct (mkdir_entry (fs s) logdir) as [k | e] eqn:Em.
    + right. split; [done |].
      destruct (mkdir_entry_inl _ _ _ Em) as (Hne & -> & Hk & Hd).
      eexists. split; [done |]. right.
      do 3 (split; [done |]). split; [exact (lookup_key_None _ _ Hk) | done].
    + left. split; [done |]. split; [done |]. exists e. split; [done |].
      exact (mkdir_entry_inr _ _ _ Em).
Qed.

(** C1, as the script has it.  For every network it tunes, a run has the
    framework write the kernel log
    [os.path.join(logdir, "autotvm_" + name + "_" + network) + "_kernel.log"]
    (the log file of the tuner run of every extracted task) and, exactly
    when the network is not "bert" and "cpu" is among the target's keys, the
    graph log, the same path with ["_graph.log"]; [name] is "cpu" when "cpu"
    is among the target's keys and "cuda" otherwise.  Nothing else is
    written; a run that returns has written the logs of every selected
    network, and a run returns when the log directory is there or can be
    made and no directory is in the way of a log file. *)
Theorem log_artifact_paths argv s :
  let args := namespace_of py_int argv in
  let logdir := args_logdir args in
  let tgt := tvm_target_Target (args_target args) in
  let name := if bool_decide ("cpu" ∈ keys tgt) then "cpu" else "cuda" in
  let run := main util_get_network tvm_target_Target extract_from_program py_int
               argv s in
  (∃ finished,
     finished `prefix_of` select_networks args ∧
     written_files (new_events s run.1) =
       concat (map (network_artifacts util_get_network extract_from_program
                      logdir tgt) finished) ∧
     (run.2 = Return tt → finished = select_networks args)) ∧
  (accepted py_int argv = true → logdir_ready (fs s) logdir →
   log_keys_clear (fs s) (select_networks args) logdir tgt → run.2 = Return tt) ∧
  ∀ network,
    network_artifacts util_get_network extract_from_program logdir tgt network =
      replicate
        (length (extracted util_get_network extract_from_program network tgt))
        (os_path_join logdir ("autotvm_" +:+ name +:+ "_" +:+ network)
           +:+ "_kernel.log") ++
      (if bool_decide (network ≠ "bert" ∧ "cpu" ∈ keys tgt)
       then [os_path_join logdir ("autotvm_" +:+ name +:+ "_" +:+ network)
               +:+ "_graph.log"]
       else []).
Proof.
  intros args logdir tgt name run. split; [| split; [| done]].
  - assert (new_events s s = []) as Hnil.
    { unfold new_events. by rewrite drop_all. }
    subst run args logdir tgt.
    destruct (main_cases argv s)
      as [[_ Hr] | [(_ & _ & e & Hr & _) | (Hacc & s0 & Hr & Hs0)]];
      rewrite Hr; cbn [fst snd]; rewrite ?Hnil;
      try (exists []; split; [apply prefix_nil | by split]).
    destruct (tune_all_written util_get_network extract_from_program
                (select_networks (namespace_of py_int argv))
                (args_logdir (namespace_of py_int argv))
                (tvm_target_Target (args_target (namespace_of py_int argv)))
                (args_inputname (namespace_of py_int argv)) s0)
      as (finished & Hpre & Hw & Hret).
    destruct (tune_all_cases util_get_network extract_from_program
                (select_networks (namespace_of py_int argv))
                (args_logdir (namespace_of py_int argv))
                (tvm_target_Target (args_target (namespace_of py_int argv)))
                (args_inputname (namespace_of py_int argv)) s0)
      as (evs & Htr & _).
    exists finished. split; [done |]. split; [| done].
    unfold new_events in *. rewrite Htr, drop_app_length in Hw. rewrite Htr.
    destruct Hs0 as [[-> _] | (-> & _)]; simpl.
    + by rewrite drop_app_length.
    + by rewrite <- app_assoc, drop_app_length.
  - intros Hacc Hready Hclear.
    destruct (main_ok util_get_network extract_from_program tvm_target_Target
                py_int argv s Hacc Hready Hclear) as (s' & Hrun & _).
    subst run. by rewrite Hrun.
Qed.

(** C7, for integer values.  The values given with [--thread] change nothing
    as long as [int] accepts them: two invocations that are the same apart
    from their [--thread] options end in the same state, trace included,
    with the same outcome. *)
Theorem thread_flag_ignored argv1 argv2 s :
  without_thread argv1 = without_thread argv2 →
  Forall (λ v, is_Some (py_int v)) (thread_values argv1) →
  Forall (λ v, is_Some (py_int v)) (thread_values argv2) →
  main util_get_network tvm_target_Target extract_from_program py_int argv1 s =
  main util_get_network tvm_target_Target extract_from_program py_int argv2 s.
Proof.
  intros Hw H1 H2. rewrite !main_scan.
  pose proof (scan_without_thread py_int argv1 default_namespace default_namespace
                eq_refl H1) as E1.
  pose proof (scan_without_thread py_int argv2 default_namespace default_namespace
                eq_refl H2) as E2.
  rewrite Hw, <- E2 in E1.
  destruct (scan py_int argv1 default_namespace) as [[n1 t1 l1 th1 i1] | c1],
    (scan py_int argv2 default_namespace) as [[n2 t2 l2 th2 i2] | c2];
    simplify_eq/=; reflexivity.
Qed.

(** C8. [--network] takes "resnet-50", "mobilenet_v2", "bert" or "all": any
    other value, once [argparse] reaches it, ends the script with status 2
    and nothing done.  The network of a run is the last one given.  With
    none given or "all", the networks tuned are resnet-50, mobilenet_v2 and
    bert, in that order; otherwise the one network named. *)
Theorem network_flag_selects argv s :
  let args := namespace_of py_int argv in
  let tgt := tvm_target_Target (args_target args) in
  let run := main util_get_network tvm_target_Target extract_from_program py_int
               argv s in
  let ready :=
    logdir_ready (fs s) (args_logdir args) ∧
    log_keys_clear (fs s) (select_networks args) (args_logdir args) tgt in
  (∀ before v after,
     argv = before ++ OptNetwork v :: after → accepted py_int before = true →
     v ∉ ["resnet-50"; "mobilenet_v2"; "bert"; "all"] →
     run = (s, Raise (SystemExit 2))) ∧
  (accepted py_int argv = true →
   args_network args = given_network argv ∧
   ∀ n, given_network argv = Some n →
        n ∈ ["resnet-50"; "mobilenet_v2"; "bert"; "all"]) ∧
  (accepted py_int argv = true →
   given_network argv = None ∨ given_network argv = Some "all" → ready →
   ∃ s', run = (s', Return tt) ∧
         tuned_networks (new_events s s') = ["resnet-50"; "mobilenet_v2"; "bert"]) ∧
  (accepted py_int argv = true →
   ∀ n, given_network argv = Some n → n ≠ "all" → ready →
   ∃ s', run = (s', Return tt) ∧ tuned_networks (new_events s s') = [n]).
Proof.
  intros args tgt run ready.
  assert (accepted py_int argv = true → args_network args = given_network argv)
    as Hgiven.
  { subst args. unfold accepted, namespace_of, given_network.
    destruct (scan py_int argv default_namespace) as [ns |] eqn:E; [| done].
    intros _. by rewrite (scan_given_network _ _ _ _ E). }
  split; [| split; [| split]].
  - intros before v after -> Hb Hv. subst run. rewrite main_scan, scan_app.
    unfold accepted in Hb.
    destruct (scan py_int before default_namespace) as [ns |]; [| done].
    simpl. by rewrite bool_decide_eq_false_2.
  - intros Hacc. split; [by apply Hgiven |]. intros n Hn.
    rewrite <- (Hgiven Hacc) in Hn. subst args.
    unfold accepted, namespace_of in *.
    destruct (scan py_int argv default_namespace) as [ns |] eqn:E; [| done].
    by eapply (scan_network _ _ _ _ E).
  - intros Hacc Hall [Hr Hc].
    destruct (main_ok util_get_network extract_from_program tvm_target_Target
                py_int argv s Hacc Hr Hc) as (s' & Hrun & Hnet).
    exists s'. split; [done |]. rewrite Hnet. unfold select_networks.
    fold args. rewrite (Hgiven Hacc). by destruct Hall as [-> | ->].
  - intros Hacc n Hn Hne [Hr Hc].
    destruct (main_ok util_get_network extract_from_program tvm_target_Target
                py_int argv s Hacc Hr Hc) as (s' & Hrun & Hnet).
    exists s'. split; [done |]. rewrite Hnet. unfold select_networks.
    fold args. rewrite (Hgiven Hacc), Hn. simpl.
    by rewrite bool_decide_eq_false_2 by congruence.
Qed.

(** The run has made the log directory, first thing, and no other
    directory. *)
Definition made_log_directory (s : state) (logdir : string)
    (run : state * outcome unit) : Prop :=
  ∃ rest,
    trace run.1 = trace s ++ EvMkdir logdir :: rest ∧
    Forall (λ e, is_mkdir e = false) rest ∧
    lookup_path (fs run.1) logdir = Some Dir ∧
    fs s !! resolve logdir = None ∧
    ∀ k, k ≠ resolve logdir → fs run.1 !! k = Some Dir → fs s !! k = Some Dir.

Lemma tune_after_mkdir networks logdir tgt input_name s :
  fs s !! resolve logdir = None →
  lookup_path (<[resolve logdir := Dir]> (fs s)) logdir = Some Dir →
  made_log_directory s logdir
    (tune_all util_get_network extract_from_program networks logdir tgt input_name
       (State (<[resolve logdir := Dir]> (fs s)) (trace s ++ [EvMkdir logdir]))).
Proof.
  intros Hnone Hd. set (s1 := State _ _).
  destruct (always_tune_all util_get_network extract_from_program
              (λ e, is_mkdir e = false) networks logdir tgt input_name) with s1
    as [(evs & E & F) Hsh].
  { intros network []; done. }
  exists evs. split; [by rewrite E; simpl; rewrite <- app_assoc |].
  split; [done |]. split; [by eapply lookup_path_shrinks_dir |].
  split; [done |].
  intros k Hk Hdir. destruct (Hsh k) as [Ek | [_ Ek]]; [| congruence].
  by rewrite Ek in Hdir; simpl in Hdir; rewrite lookup_insert_ne in Hdir.
Qed.

(** C10. When the [--logdir] path does not exist, the first thing the script
    does is one [os.mkdir] of it.  Either that makes the directory, before
    any tuning and with no other directory made, or it raises and nothing
    is created or tuned.  For a path that names an entry [name] of a
    directory [parent]: with [parent] there and no such entry yet, the
    directory is made; with no directory [parent] (it is missing, or a file
    is in the way) [os.mkdir] raises [FileNotFoundError] or
    [NotADirectoryError] instead of making the intermediate directories. *)
Theorem logdir_single_level argv s :
  let logdir := args_logdir (namespace_of py_int argv) in
  let run := main util_get_network tvm_target_Target extract_from_program py_int
               argv s in
  accepted py_int argv = true →
  lookup_path (fs s) logdir = None →
  (made_log_directory s logdir run ∨
   ∃ e, run = (s, Raise e) ∧
        (e = FileNotFoundError logdir ∨ e = NotADirectoryError logdir ∨
         e = FileExistsError logdir)) ∧
  ∀ parent name slashes,
    entry_of logdir parent name slashes →
    (parent = "" ∨ lookup_path (fs s) parent = Some Dir →
     lookup_path (fs s) (parent +:+ name) = None →
     made_log_directory s logdir run) ∧
    (parent ≠ "" → lookup_path (fs s) parent = None →
     run = (s, Raise (FileNotFoundError logdir)) ∨
     run = (s, Raise (NotADirectoryError logdir))).
Proof.
  intros logdir run Hacc Hnone. subst run. rewrite main_run, Hacc. cbv zeta.
  fold logdir. rewrite Hnone. unfold tune_selected. fold logdir.
  split; [| intros parent name slashes He; split].
  - destruct (mkdir_entry (fs s) logdir) as [k | e] eqn:Em.
    + left. destruct (mkdir_entry_inl _ _ _ Em) as (_ & -> & Hk & Hd).
      apply tune_after_mkdir; [exact (lookup_key_None _ _ Hk) | done].
    + right. exists e. split; [done |]. exact (mkdir_entry_inr _ _ _ Em).
  - intros Hpar Hnew.
    destruct (mkdir_entry_new _ _ _ _ _ He Hpar Hnew) as [_ Hmk]. rewrite Hmk.
    destruct (mkdir_entry_inl _ _ _ Hmk) as (_ & _ & Hk & Hd).
    apply tune_after_mkdir; [exact (lookup_key_None _ _ Hk) | done].
  - intros Hpne Hpnone.
    destruct (mkdir_entry_no_parent _ _ _ _ _ He Hpne Hpnone) as [_ [-> | ->]]; auto.
Qed.

(** X4. What the script's own code and its [os] calls can raise in [main]
    (the framework's calls are taken to return): [SystemExit] with status 0
    or 2 from the argument parser; [FileNotFoundError],
    [NotADirectoryError] or [FileExistsError] from the [os.mkdir] of the log
    directory, each with nothing done; [IsADirectoryError] from removing a
    log of one of the selected networks.  It never raises the [ValueError]
    of [tune_kernels]: the tuner name is always "xgb". *)
Theorem main_exceptions argv s :
  let args := namespace_of py_int argv in
  let logdir := args_logdir args in
  let tgt := tvm_target_Target (args_target args) in
  let run := main util_get_network tvm_target_Target extract_from_program py_int
               argv s in
  (∀ msg, run.2 ≠ Raise (ValueError msg)) ∧
  ∀ e, run.2 = Raise e →
    ((e = SystemExit 0 ∨ e = SystemExit 2) ∧ run.1 = s) ∨
    ((e = FileNotFoundError logdir ∨ e = NotADirectoryError logdir ∨
      e = FileExistsError logdir) ∧
     lookup_path (fs s) logdir = None ∧ run.1 = s) ∨
    ∃ network, network ∈ select_networks args ∧
      (e = IsADirectoryError (kernel_log_of logdir tgt network) ∨
       e = IsADirectoryError (graph_log_of logdir tgt network)).
Proof.
  intros args logdir tgt run. subst args logdir tgt run.
  match goal with |- _ ∧ ?P => assert P as H end.
  { intros e He.
    destruct (main_cases argv s)
      as [[Hacc Hr] | [(_ & Hnone & e' & Hr & He') | (_ & s0 & Hr & _)]];
      rewrite Hr in He |- *.
    - left. injection He as <-. split; [| done].
      destruct (exit_status_cases _ _ Hacc) as [-> | ->]; auto.
    - right. left. by injection He as <-.
    - right. right.
      destruct (tune_all_cases util_get_network extract_from_program
                  (select_networks (namespace_of py_int argv))
                  (args_logdir (namespace_of py_int argv))
                  (tvm_target_Target (args_target (namespace_of py_int argv)))
                  (args_inputname (namespace_of py_int argv)) s0)
        as (evs & _ & _ & _ & Hout).
      by rewrite He in Hout. }
  split; [| exact H].
  intros msg He.
  destruct (H _ He) as [[[? | ?] _] | [[[? | [? | ?]] _] | (n & _ & [? | ?])]]; done.
Qed.

(** X5. The networks tuned are always an initial segment of the selected
    ones, in their order: an error at one network leaves the later ones
    untouched.  When [main] returns, every selected network has been tuned. *)
Theorem tuned_networks_prefix argv s :
  let args := namespace_of py_int argv in
  let run := main util_get_network tvm_target_Target extract_from_program py_int
               argv s in
  let tuned := tuned_networks (new_events s run.1) in
  tuned `prefix_of` select_networks args ∧
  (run.2 = Return tt → tuned = select_networks args) ∧
  Forall (λ n, n ∈ known_networks) tuned.
Proof.
  intros args run tuned.
  assert (new_events s s = []) as Hnil.
  { unfold new_events. by rewrite drop_all. }
  subst tuned run args.
  destruct (main_cases argv s)
    as [[_ Hr] | [(_ & _ & e & Hr & _) | (Hacc & s0 & Hr & Hs0)]];
    rewrite Hr; cbn [fst snd]; rewrite ?Hnil; try by (split; [apply prefix_nil |]).
  destruct (tune_all_cases util_get_network extract_from_program
              (select_networks (namespace_of py_int argv))
              (args_logdir (namespace_of py_int argv))
              (tvm_target_Target (args_target (namespace_of py_int argv)))
              (args_inputname (namespace_of py_int argv)) s0)
    as (evs & Htr & _ & Hpre & Hout).
  assert (tuned_networks
            (new_events s
               (tune_all util_get_network extract_from_program
                  (select_networks (namespace_of py_int argv))
                  (args_logdir (namespace_of py_int argv))
                  (tvm_target_Target (args_target (namespace_of py_int argv)))
                  (args_inputname (namespace_of py_int argv)) s0).1) =
          tuned_networks evs) as ->.
  { unfold new_events. rewrite Htr.
    destruct Hs0 as [[-> _] | (-> & _)]; simpl.
    - by rewrite drop_app_length.
    - by rewrite <- app_assoc, drop_app_length. }
  split; [done |]. split.
  - intros He. by rewrite He in Hout.
  - apply Forall_forall. intros n Hn.
    apply (select_networks_known py_int argv n).
    destruct Hpre as [rest ->]. apply elem_of_app. by left.
Qed.

(** X6. What the script's own [os] calls do to the file system in a run of
    [main]: they may create the log directory, and they may remove kernel
    and graph logs of the selected networks that are files.  They leave
    every other path as it was, and remove no directory.  (What the
    framework writes is in the trace, not in the model's file system.) *)
Theorem main_touches_only_its_logs argv s k :
  let args := namespace_of py_int argv in
  let logdir := args_logdir args in
  let tgt := tvm_target_Target (args_target args) in
  let run := main util_get_network tvm_target_Target extract_from_program py_int
               argv s in
  fs run.1 !! k = fs s !! k ∨
  (k = resolve logdir ∧ fs s !! k = None ∧ fs run.1 !! k = Some Dir) ∨
  (fs s !! k = Some File ∧ fs run.1 !! k = None ∧
   log_keys (select_networks args) logdir tgt k).
Proof.
  intros args logdir tgt run. subst run args logdir tgt.
  destruct (main_cases argv s)
    as [[_ Hr] | [(_ & _ & e & Hr & _) | (Hacc & s0 & Hr & Hs0)]];
    rewrite Hr; try by left.
  destruct (tune_all_cases util_get_network extract_from_program
              (select_networks (namespace_of py_int argv))
              (args_logdir (namespace_of py_int argv))
              (tvm_target_Target (args_target (namespace_of py_int argv)))
              (args_inputname (namespace_of py_int argv)) s0)
    as (evs & _ & Hfs & _ & _).
  set (logdir := args_logdir (namespace_of py_int argv)) in *.
  destruct Hs0 as [[-> _] | (-> & _ & Hne & Hnone & _)]; cbn [fs] in Hfs.
  - destruct (Hfs k) as [E | E]; [by left | by right; right].
  - destruct (decide (k = resolve logdir)) as [-> | Hk].
    + right. left. split; [done |]. split; [done |].
      destruct (Hfs (resolve logdir)) as [-> | (E & _)].
      * apply lookup_insert_eq.
      * by rewrite lookup_insert_eq in E.
    + destruct (Hfs k) as [E | (E1 & E2 & E3)].
      * left. by rewrite E, lookup_insert_ne.
      * right. right. by rewrite lookup_insert_ne in E1.
Qed.

(** X7. [--inputname] reaches only the graph tuner: on a target without
    "cpu" among its keys, or when the one network is "bert", two
    invocations that are the same apart from their [--inputname] options
    end in the same state, trace included, with the same outcome. *)
Theorem inputname_reaches_only_graph_tuner argv1 argv2 s :
  without_inputname argv1 = without_inputname argv2 →
  "cpu" ∉ keys (tvm_target_Target (args_target (namespace_of py_int argv1)))
  ∨ args_network (namespace_of py_int argv1) = Some "bert" →
  main util_get_network tvm_target_Target extract_from_program py_int argv1 s =
  main util_get_network tvm_target_Target extract_from_program py_int argv2 s.
Proof.
  intros Hw Hc. rewrite !main_scan. unfold namespace_of in Hc.
  pose proof (scan_without_inputname py_int argv1 default_namespace
                default_namespace eq_refl) as E1.
  pose proof (scan_without_inputname py_int argv2 default_namespace
                default_namespace eq_refl) as E2.
  rewrite Hw, <- E2 in E1.
  destruct (scan py_int argv1 default_namespace) as [[n1 t1 l1 th1 i1] | c1],
    (scan py_int argv2 default_namespace) as [[n2 t2 l2 th2 i2] | c2];
    simplify_eq/=; [| done].
  assert (∀ s0, tune_selected util_get_network extract_from_program
                  tvm_target_Target (Namespace n2 t2 l2 th2 i1) s0 =
                tune_selected util_get_network extract_from_program
                  tvm_target_Target (Namespace n2 t2 l2 th2 i2) s0)
    as Hloop.
  { intros s0. unfold tune_selected, tune_all. simpl. apply for_each_ext.
    intros n s1 Hn. apply autotvm_tune_input_name.
    destruct Hc as [Hc | ->]; [by left | right].
    by apply list_elem_of_singleton in Hn. }
  unfold after_parse. simpl.
  destruct (lookup_path _ _); [apply Hloop |].
  destruct (mkdir_entry _ _); [apply Hloop | done].
Qed.

(** X11. Nothing on the command line changes how tuning is done: every
    tuner the script builds is an [XGBTuner] with [loss_type="rank"], every
    [tune] call has no early stopping and the measure options of the
    target's device class, and the graph tuner is always [DPTuner] with
    [min_exec_num=2000]. *)
Theorem script_tuner_choices argv s :
  let tgt := tvm_target_Target (args_target (namespace_of py_int argv)) in
  Forall (tuner_choice_ok tgt)
    (new_events s
       (main util_get_network tvm_target_Target extract_from_program py_int
          argv s).1).
Proof.
  intros tgt. subst tgt.
  assert (new_events s s = []) as Hnil.
  { unfold new_events. by rewrite drop_all. }
  destruct (main_cases argv s)
    as [[_ Hr] | [(_ & _ & e & Hr & _) | (Hacc & s0 & Hr & Hs0)]];
    rewrite Hr; cbn [fst]; rewrite ?Hnil; try done.
  set (run := tune_all _ _ _ _ _ _ s0).
  assert (grows (tuner_choice_ok
                   (tvm_target_Target (args_target (namespace_of py_int argv))))
            s0 run.1)
    as [(evs & Htr & Hev) _].
  { apply always_for_each. intros n. apply always_autotvm_tune_run.
    intros f. apply run_events_choices. }
  unfold new_events. rewrite Htr.
  destruct Hs0 as [[-> _] | (-> & _)]; simpl.
  - by rewrite drop_app_length.
  - rewrite <- app_assoc, drop_app_length. by apply Forall_cons.
Qed.

End Whole.

(** ** The whole script on concrete runs *)

(** C7 as stated fails: [--thread abc] ends the run at argument parsing,
    with status 2 and nothing tuned, where [--thread 8] tunes the three
    networks. *)
Lemma thread_flag_ignored_counterexample :
  main demo_get_network demo_Target demo_extract demo_int [OptThread "abc"]
    (State ∅ []) = (State ∅ [], Raise (SystemExit 2)) ∧
  (main demo_get_network demo_Target demo_extract demo_int [OptThread "8"]
     (State ∅ [])).2 = Return tt ∧
  tuned_networks
    (trace (main demo_get_network demo_Target demo_extract demo_int
              [OptThread "8"] (State ∅ [])).1) =
    ["resnet-50"; "mobilenet_v2"; "bert"].
Proof. repeat split; vm_compute; reflexivity. Qed.

(** C7 on a run: [--thread 8] before [--network bert], [--thread 16] after
    it. *)
Lemma thread_flag_ignored_witness :
  main demo_get_network demo_Target demo_extract demo_int
    [OptThread "8"; OptNetwork "bert"] demo_state =
  main demo_get_network demo_Target demo_extract demo_int
    [OptNetwork "bert"; OptThread "16"] demo_state.
Proof.
  apply (thread_flag_ignored demo_get_network demo_extract demo_Target demo_int
           [OptThread "8"; OptNetwork "bert"] [OptNetwork "bert"; OptThread "16"]
           demo_state).
  - reflexivity.
  - repeat constructor; vm_compute; eauto.
  - repeat constructor; vm_compute; eauto.
Defined.

(** C8 on a run: [--network bert] tunes bert alone. *)
Lemma network_flag_selects_witness :
  ∃ s',
    main demo_get_network demo_Target demo_extract demo_int
      [OptNetwork "bert"; OptTarget "cuda"] demo_state = (s', Return tt) ∧
    tuned_networks (new_events demo_state s') = ["bert"].
Proof.
  apply (network_flag_selects demo_get_network demo_extract demo_Target demo_int
           [OptNetwork "bert"; OptTarget "cuda"] demo_state).
  - reflexivity.
  - reflexivity.
  - discriminate.
  - split.
    + left. vm_compute. eauto.
    + intros network Hin. apply list_elem_of_singleton in Hin as ->.
      split; intros H; vm_compute in H; discriminate.
Defined.

(** C10 on two runs: [--logdir a/b] with no directory [a], and the default
    ["tuning_logs/"] in an empty working directory. *)
Lemma logdir_single_level_witness :
  (main demo_get_network demo_Target demo_extract demo_int
     [OptNetwork "bert"; OptLogdir "a/b"] (State ∅ []) =
     (State ∅ [], Raise (FileNotFoundError "a/b")) ∨
   main demo_get_network demo_Target demo_extract demo_int
     [OptNetwork "bert"; OptLogdir "a/b"] (State ∅ []) =
     (State ∅ [], Raise (NotADirectoryError "a/b"))) ∧
  made_log_directory (State ∅ []) "tuning_logs/"
    (main demo_get_network demo_Target demo_extract demo_int
       [OptNetwork "bert"] (State ∅ [])).
Proof.
  split.
  - destruct (logdir_single_level demo_get_network demo_extract demo_Target demo_int
                [OptNetwork "bert"; OptLogdir "a/b"] (State ∅ [])) as [_ H].
    + reflexivity.
    + vm_compute. reflexivity.
    + destruct (H "a/" "b" "") as [_ H2].
      * repeat split; auto.
      * apply H2; [discriminate | vm_compute; reflexivity].
  - destruct (logdir_single_level demo_get_network demo_extract demo_Target demo_int
                [OptNetwork "bert"] (State ∅ [])) as [_ H].
    + reflexivity.
    + vm_compute. reflexivity.
    + destruct (H "" "tuning_logs" "/") as [H1 _].
      * repeat split; auto.
      * apply H1; [by left | vm_compute; reflexivity].
Defined.

(** ** Further properties on concrete runs *)

(** X2 on a run: of two tasks, the first tuner is for the second task. *)
Lemma kth_tune_call_witness :
  new_events (State ∅ [])
    (tune_kernels demo_tasks cpu_measure_option "xgb" 1000 None "tuning.log"
       (State ∅ [])).1 !! 1%nat =
  Some (EvTune (XGBTuner {| task_name := "dense_b"; config_space_len := 5000 |} "rank")
          1000 None cpu_measure_option
          [progress_bar 1000 "[Task  1/ 2] "; log_to_file "tuning.log"]).
Proof.
  apply (kth_tune_call demo_tasks cpu_measure_option "xgb" 1000 None "tuning.log"
           (State ∅ []) 0 {| task_name := "dense_b"; config_space_len := 5000 |}).
  - compute_done.
  - simpl. lia.
  - reflexivity.
Defined.

(** X7 on a run: on a "cuda" target the input name makes no difference. *)
Lemma inputname_reaches_only_graph_tuner_witness :
  main demo_get_network demo_Target demo_extract demo_int
    [OptNetwork "resnet-50"; OptTarget "cuda"; OptInputname "data"] demo_state =
  main demo_get_network demo_Target demo_extract demo_int
    [OptNetwork "resnet-50"; OptTarget "cuda"; OptInputname "input0"] demo_state.
Proof.
  apply (inputname_reaches_only_graph_tuner demo_get_network demo_extract
           demo_Target demo_int).
  - reflexivity.
  - left. compute_done.
Defined.

(** X9 on a run: ["tuning_logs/"] and ["tuning_logs"]. *)
Lemma logdir_trailing_slash_witness :
  kernel_log_of "tuning_logs/" demo_cpu "bert" =
    kernel_log_of "tuning_logs" demo_cpu "bert" ∧
  graph_log_of "tuning_logs/" demo_cpu "bert" =
    graph_log_of "tuning_logs" demo_cpu "bert".
Proof.
  apply (logdir_trailing_slash "tuning_logs" demo_cpu "bert").
  - discriminate.
  - reflexivity.
Defined.
